(** * Metadata catalog of the scanner engine (scanner/engine/db.cpp)

    A shallow embedding of the catalog ([DatabaseMetadata]), of the per-item,
    per-job and per-table metadata views and of the publish routine
    [write_new_table], followed by the properties proved about them.

    Conventions of the embedding.
    - [i32] and [i64] values are integers of [Z]; the only arithmetic the
      file performs on them is the post-increment of the two id counters,
      whose overflow is written out as two's complement wrap-around
      ([wrap32]).
    - [std::map<K, V>] is a [gmap K V]; where the code iterates over a map
      the entries are visited in ascending key order ([entries]).
    - A call that does not hand a value back to its caller yields [Err f],
      where [f] tells why: a failed [assert], [LOG(FATAL)], the
      [std::out_of_range] thrown by [std::map::at], a failed backend write,
      or control reaching the end of a non-void function. *)

From stdpp Require Import gmap strings list fin_maps sorting.
From Stdlib Require Import ZArith Lia.

Local Open Scope Z_scope.
Local Open Scope string_scope.

(** ** Machine integers and outcomes *)

Definition i32_min : Z := -2147483648.
Definition i32_max : Z := 2147483647.

Definition in_i32 (z : Z) : Prop := i32_min <= z <= i32_max.

(** The value an [i32] holds after an arithmetic result [z] is stored in it. *)
Definition wrap32 (z : Z) : Z := (z + 2147483648) mod 4294967296 - 2147483648.

(** The same for an [i64]. *)
Definition wrap64 (z : Z) : Z :=
  (z + 9223372036854775808) mod 18446744073709551616 - 9223372036854775808.

Inductive fault : Type :=
| AssertFail      (* assert(...) did not hold *)
| LogFatal        (* LOG(FATAL) *)
| OutOfRange      (* std::map::at on a missing key *)
| BackendFail     (* a storage write did not succeed *)
| NoReturn.       (* end of a non-void function reached without a return *)

Inductive res (A : Type) : Type :=
| Ok (a : A)
| Err (f : fault).
Arguments Ok {A} a.
Arguments Err {A} f.

Definition res_bind {A B} (r : res A) (k : A -> res B) : res B :=
  match r with
  | Ok a => k a
  | Err f => Err f
  end.

(** ** Iterating over a [std::map] *)

Definition key_le {K V} (le : K -> K -> Prop) (a b : K * V) : Prop := le a.1 b.1.

#[global] Instance key_le_Z_dec {V} : RelDecision (@key_le Z V Z.le).
Proof. intros a b. unfold key_le. apply _. Defined.

(** The [(key, value)] pairs of an id-keyed map in the order a range-for
    visits them.  The header declaring the members is not among the sources;
    [table_names_] and [job_names_] are taken to be
    [std::map<i32, std::string>], which is iterated in ascending key order. *)
Definition entries {V} (m : gmap Z V) : list (Z * V) :=
  merge_sort (key_le Z.le) (map_to_list m).

(** [m.insert({k, v})]: the map is left as it is when [k] is already a key. *)
Definition map_insert_new `{Countable K} {V} (k : K) (v : V) (m : gmap K V) : gmap K V :=
  match m !! k with
  | Some _ => m
  | None => <[k := v]> m
  end.

(** ** The catalog: [DatabaseDescriptor] and [DatabaseMetadata] *)

Record DatabaseDescriptor : Type := mkDatabaseDescriptor {
  d_next_table_id : Z;
  d_next_job_id : Z;
  d_tables : list (Z * string);
  d_jobs : list (Z * string)
}.

Record DatabaseMetadata : Type := mkDatabaseMetadata {
  descriptor_ : DatabaseDescriptor;      (* Metadata<DatabaseDescriptor>::descriptor_, mutable *)
  next_table_id_ : Z;
  next_job_id_ : Z;
  table_names_ : gmap Z string;
  job_names_ : gmap Z string
}.

Definition empty_descriptor : DatabaseDescriptor :=
  mkDatabaseDescriptor 0 0 [] [].

(** [DatabaseMetadata::DatabaseMetadata()] *)
Definition DatabaseMetadata_new : DatabaseMetadata :=
  mkDatabaseMetadata empty_descriptor 0 0 ∅ ∅.

Definition insert_all (l : list (Z * string)) (m : gmap Z string) : gmap Z string :=
  fold_left (fun acc kv => map_insert_new kv.1 kv.2 acc) l m.

(** [DatabaseMetadata::DatabaseMetadata(const DatabaseDescriptor&)] *)
Definition DatabaseMetadata_of (d : DatabaseDescriptor) : DatabaseMetadata :=
  mkDatabaseMetadata d (d_next_table_id d) (d_next_job_id d)
    (insert_all (d_tables d) ∅) (insert_all (d_jobs d) ∅).

Definition name_is (name : string) (kv : Z * string) : bool :=
  bool_decide (kv.2 = name).

(** The scan shared by [get_table_id] and [get_job_id]: [id] starts at -1,
    takes the key of the first entry named [name], and must differ from -1
    afterwards. *)
Definition scan_id (name : string) (l : list (Z * string)) : res Z :=
  let id := match find (name_is name) l with
            | Some kv => kv.1
            | None => -1
            end in
  if bool_decide (id = -1) then Err AssertFail else Ok id.

(** [m.at(k)] *)
Definition map_at `{Countable K} {V} (m : gmap K V) (k : K) : res V :=
  match m !! k with
  | Some v => Ok v
  | None => Err OutOfRange
  end.

Module DatabaseMetadata.

(** [DatabaseMetadata::get_descriptor]: the cached [descriptor_] is
    overwritten field by field and handed back. *)
Definition get_descriptor (m : DatabaseMetadata) : DatabaseDescriptor * DatabaseMetadata :=
  let d := mkDatabaseDescriptor (next_table_id_ m) (next_job_id_ m)
             (entries (table_names_ m)) (entries (job_names_ m)) in
  (d, mkDatabaseMetadata d (next_table_id_ m) (next_job_id_ m)
        (table_names_ m) (job_names_ m)).

(** [has_table(const std::string&)] *)
Definition has_table_name (m : DatabaseMetadata) (table : string) : bool :=
  existsb (name_is table) (entries (table_names_ m)).

(** [has_table(i32)] *)
Definition has_table (m : DatabaseMetadata) (table_id : Z) : bool :=
  bool_decide (is_Some (table_names_ m !! table_id)).

Definition get_table_id (m : DatabaseMetadata) (table : string) : res Z :=
  scan_id table (entries (table_names_ m)).

Definition get_table_name (m : DatabaseMetadata) (table_id : Z) : res string :=
  map_at (table_names_ m) table_id.

(** [add_table]: returns the id and the catalog after the call. *)
Definition add_table (m : DatabaseMetadata) (table : string) : Z * DatabaseMetadata :=
  let table_id := next_table_id_ m in
  (table_id,
   mkDatabaseMetadata (descriptor_ m) (wrap32 (table_id + 1)) (next_job_id_ m)
     (<[table_id := table]> (table_names_ m)) (job_names_ m)).

Definition remove_table (m : DatabaseMetadata) (table_id : Z) : res DatabaseMetadata :=
  if has_table m table_id
  then Ok (mkDatabaseMetadata (descriptor_ m) (next_table_id_ m) (next_job_id_ m)
             (delete table_id (table_names_ m)) (job_names_ m))
  else Err AssertFail.

Definition has_job_name (m : DatabaseMetadata) (job : string) : bool :=
  existsb (name_is job) (entries (job_names_ m)).

Definition has_job (m : DatabaseMetadata) (job_id : Z) : bool :=
  bool_decide (is_Some (job_names_ m !! job_id)).

Definition get_job_id (m : DatabaseMetadata) (job : string) : res Z :=
  scan_id job (entries (job_names_ m)).

Definition get_job_name (m : DatabaseMetadata) (job_id : Z) : res string :=
  map_at (job_names_ m) job_id.

Definition add_job (m : DatabaseMetadata) (job_name : string) : Z * DatabaseMetadata :=
  let job_id := next_job_id_ m in
  (job_id,
   mkDatabaseMetadata (descriptor_ m) (next_table_id_ m) (wrap32 (job_id + 1))
     (table_names_ m) (<[job_id := job_name]> (job_names_ m))).

Definition remove_job (m : DatabaseMetadata) (job_id : Z) : res DatabaseMetadata :=
  if has_job m job_id
  then Ok (mkDatabaseMetadata (descriptor_ m) (next_table_id_ m) (next_job_id_ m)
             (table_names_ m) (delete job_id (job_names_ m)))
  else Err AssertFail.

End DatabaseMetadata.

Import DatabaseMetadata.

(** *** Sequences of catalog operations *)

Inductive op : Type :=
| AddTable (name : string)
| RemoveTable (table_id : Z)
| AddJob (name : string)
| RemoveJob (job_id : Z).

(** What a call hands back: the id issued by an add, nothing for a remove. *)
Inductive reply : Type :=
| TableId (id : Z)
| JobId (id : Z)
| Removed.

Definition apply_op (m : DatabaseMetadata) (o : op) : res (reply * DatabaseMetadata) :=
  match o with
  | AddTable name => let '(id, m') := add_table m name in Ok (TableId id, m')
  | RemoveTable id => res_bind (remove_table m id) (fun m' => Ok (Removed, m'))
  | AddJob name => let '(id, m') := add_job m name in Ok (JobId id, m')
  | RemoveJob id => res_bind (remove_job m id) (fun m' => Ok (Removed, m'))
  end.

(** The calls of [ops] made one after the other; the first fatal call ends the run. *)
Fixpoint run (ops : list op) (m : DatabaseMetadata) : res (list reply * DatabaseMetadata) :=
  match ops with
  | [] => Ok ([], m)
  | o :: ops' =>
      res_bind (apply_op m o) (fun '(r, m') =>
      res_bind (run ops' m') (fun '(rs, m'') => Ok (r :: rs, m'')))
  end.

Fixpoint table_ids_of (rs : list reply) : list Z :=
  match rs with
  | [] => []
  | TableId id :: rs' => id :: table_ids_of rs'
  | _ :: rs' => table_ids_of rs'
  end.

Fixpoint job_ids_of (rs : list reply) : list Z :=
  match rs with
  | [] => []
  | JobId id :: rs' => id :: job_ids_of rs'
  | _ :: rs' => job_ids_of rs'
  end.

Fixpoint table_adds (ops : list op) : Z :=
  match ops with
  | [] => 0
  | AddTable _ :: ops' => 1 + table_adds ops'
  | _ :: ops' => table_adds ops'
  end.

Fixpoint job_adds (ops : list op) : Z :=
  match ops with
  | [] => 0
  | AddJob _ :: ops' => 1 + job_adds ops'
  | _ :: ops' => job_adds ops'
  end.

(** [n] calls of [add_table] (of [add_job]) in a row, [n] given in binary. *)
Definition add_table_times (n : Z) (name : string) (m : DatabaseMetadata) : DatabaseMetadata :=
  Z.iter n (fun m' => (add_table m' name).2) m.

Definition add_job_times (n : Z) (name : string) (m : DatabaseMetadata) : DatabaseMetadata :=
  Z.iter n (fun m' => (add_job m' name).2) m.

(** Two catalogs that no accessor tells apart. *)
Record same_answers (a b : DatabaseMetadata) : Prop := mk_same_answers {
  sa_has_table_name : forall name, has_table_name a name = has_table_name b name;
  sa_has_table : forall id, has_table a id = has_table b id;
  sa_get_table_id : forall name, get_table_id a name = get_table_id b name;
  sa_get_table_name : forall id, get_table_name a id = get_table_name b id;
  sa_has_job_name : forall name, has_job_name a name = has_job_name b name;
  sa_has_job : forall id, has_job a id = has_job b id;
  sa_get_job_id : forall name, get_job_id a name = get_job_id b name;
  sa_get_job_name : forall id, get_job_name a id = get_job_name b id;
  sa_next_table_id : next_table_id_ a = next_table_id_ b;
  sa_next_job_id : next_job_id_ a = next_job_id_ b
}.

(** ** Item descriptors: [VideoDescriptor] and [VideoMetadata] *)

Record VideoDescriptor : Type := mkVideoDescriptor {
  vd_table_id : Z;
  vd_column_id : Z;
  vd_item_id : Z;
  vd_frames : Z;
  vd_width : Z;
  vd_height : Z;
  vd_keyframe_positions : list Z;
  vd_keyframe_byte_offsets : list Z
}.

Record VideoMetadata : Type := mkVideoMetadata {
  video_descriptor_ : VideoDescriptor
}.

(** [VideoMetadata::VideoMetadata(const VideoDescriptor&)]: the payload is
    stored; the constructor body is empty and has no failing path. *)
Definition VideoMetadata_of (d : VideoDescriptor) : res VideoMetadata :=
  Ok (mkVideoMetadata d).

Module VideoMetadata.

(** The two accessors copy the repeated fields into fresh vectors. *)
Definition keyframe_positions (v : VideoMetadata) : list Z :=
  vd_keyframe_positions (video_descriptor_ v).

Definition keyframe_byte_offsets (v : VideoMetadata) : list Z :=
  vd_keyframe_byte_offsets (video_descriptor_ v).

End VideoMetadata.

(** ** Columns *)

(** Modelled from the spec: the [ColumnType] enum is declared by the protobuf
    schema, which is not among the sources; the spec names the members INT
    and VIDEO, every other member is kept by its numeric tag. *)
Inductive ColumnType : Type :=
| INT
| VIDEO
| OtherType (tag : Z).

Record Column : Type := mkColumn {
  c_id : Z;
  c_name : string;
  c_type : ColumnType
}.

(** ** [JobDescriptor] and [JobMetadata] *)

Record TableSample : Type := mkTableSample {
  ts_table_id : Z;
  ts_rows : list Z
}.

Record Task : Type := mkTask {
  output_table_id : Z;
  samples : list TableSample
}.

Record JobDescriptor : Type := mkJobDescriptor {
  jd_id : Z;
  jd_name : string;
  jd_io_item_size : Z;
  jd_work_item_size : Z;
  jd_num_nodes : Z;
  jd_columns : list Column;
  jd_tasks : list Task
}.

Record JobMetadata : Type := mkJobMetadata {
  job_descriptor_ : JobDescriptor;
  job_columns_ : list Column;
  column_ids_ : gmap string Z;
  table_ids_ : list Z;
  rows_in_table_ : gmap Z Z            (* mutable cache *)
}.

(** The first loop of the constructor: every column is appended to
    [columns_] and its [(name, id)] pair offered to [column_ids_]. *)
Definition collect_columns (cs : list Column) : list Column * gmap string Z :=
  fold_left (fun '(cols, ids) c => ((cols ++ [c])%list, map_insert_new (c_name c) (c_id c) ids))
            cs ([], ∅).

(** The second loop: the output table of every task is appended. *)
Definition collect_table_ids (ts : list Task) : list Z :=
  fold_left (fun acc t => (acc ++ [output_table_id t])%list) ts [].

(** [JobMetadata::JobMetadata(const JobDescriptor&)] *)
Definition JobMetadata_of (job : JobDescriptor) : JobMetadata :=
  let '(cols, ids) := collect_columns (jd_columns job) in
  mkJobMetadata job cols ids (collect_table_ids (jd_tasks job)) ∅.

Module JobMetadata.

(** [JobMetadata::column_id]: the body is the single expression statement
    [column_ids_.at(column_name);] — the looked-up value is dropped and the
    function ends without a [return]. *)
Definition column_id (m : JobMetadata) (column_name : string) : res Z :=
  res_bind (map_at (column_ids_ m) column_name) (fun _ => Err NoReturn).

Definition table_ids (m : JobMetadata) : list Z := table_ids_ m.

Definition has_table (m : JobMetadata) (table_id : Z) : bool :=
  existsb (fun id => bool_decide (id = table_id)) (table_ids_ m).

(** The loop of [rows_in_table] on a cache miss: for every task, [rows]
    becomes the size of the first sample and [(table_id, rows)] is offered
    to the cache with [insert]. *)
Fixpoint rows_scan (table_id : Z) (tasks : list Task) (rows : Z) (cache : gmap Z Z)
  : res (Z * gmap Z Z) :=
  match tasks with
  | [] => Ok (rows, cache)
  | task :: rest =>
      match samples task with
      | [] => Err AssertFail
      | sample :: _ =>
          let rows' := Z.of_nat (length (ts_rows sample)) in
          rows_scan table_id rest rows' (map_insert_new table_id rows' cache)
      end
  end.

(** [JobMetadata::rows_in_table]: the value returned and the object after the call. *)
Definition rows_in_table (m : JobMetadata) (table_id : Z) : res (Z * JobMetadata) :=
  res_bind
    (match rows_in_table_ m !! table_id with
     | None => rows_scan table_id (jd_tasks (job_descriptor_ m)) (-1) (rows_in_table_ m)
     | Some cached => Ok (cached, rows_in_table_ m)
     end)
    (fun '(rows, cache) =>
       if bool_decide (rows = -1) then Err AssertFail
       else Ok (rows, mkJobMetadata (job_descriptor_ m) (job_columns_ m) (column_ids_ m)
                        (table_ids_ m) cache)).

(** [JobMetadata::columns] *)
Definition columns (m : JobMetadata) : list Column := job_columns_ m.

(** The loop of [total_rows]: every task must have a sample, and the size
    of its first sample is added to the [i64] accumulator [rows]. *)
Fixpoint total_rows_from (tasks : list Task) (rows : Z) : res Z :=
  match tasks with
  | [] => Ok rows
  | task :: rest =>
      match samples task with
      | [] => Err AssertFail
      | sample :: _ =>
          total_rows_from rest (wrap64 (rows + Z.of_nat (length (ts_rows sample))))
      end
  end.

(** [JobMetadata::total_rows] *)
Definition total_rows (m : JobMetadata) : res Z :=
  total_rows_from (jd_tasks (job_descriptor_ m)) 0.

End JobMetadata.

(** Two calls in a row on the same object. *)
Definition rows_in_table_twice (m : JobMetadata) (table_id : Z) : res (Z * Z) :=
  res_bind (JobMetadata.rows_in_table m table_id) (fun '(r1, m1) =>
  res_bind (JobMetadata.rows_in_table m1 table_id) (fun '(r2, _) => Ok (r1, r2))).

(** ** [TableDescriptor] and [TableMetadata] *)

Record TableDescriptor : Type := mkTableDescriptor {
  td_id : Z;
  td_name : string;
  td_num_rows : Z;
  td_rows_per_item : Z;
  td_columns : list Column
}.

Record TableMetadata : Type := mkTableMetadata {
  table_descriptor_ : TableDescriptor;
  table_columns_ : list Column
}.

(** [TableMetadata::TableMetadata(const TableDescriptor&)] *)
Definition TableMetadata_of (table : TableDescriptor) : TableMetadata :=
  mkTableMetadata table (fold_left (fun acc c => (acc ++ [c])%list) (td_columns table) []).

Definition has_id (column_id : Z) (c : Column) : bool := bool_decide (c_id c = column_id).
Definition has_name (column_name : string) (c : Column) : bool :=
  bool_decide (c_name c = column_name).

Module TableMetadata.

Definition id (t : TableMetadata) : Z := td_id (table_descriptor_ t).
Definition name (t : TableMetadata) : string := td_name (table_descriptor_ t).

(** The three scans return at the first matching column and reach
    [LOG(FATAL)] when the loop ends. *)
Definition column_name (t : TableMetadata) (column_id : Z) : res string :=
  match find (has_id column_id) (td_columns (table_descriptor_ t)) with
  | Some c => Ok (c_name c)
  | None => Err LogFatal
  end.

Definition column_id (t : TableMetadata) (column_name : string) : res Z :=
  match find (has_name column_name) (td_columns (table_descriptor_ t)) with
  | Some c => Ok (c_id c)
  | None => Err LogFatal
  end.

Definition column_type (t : TableMetadata) (column_id : Z) : res ColumnType :=
  match find (has_id column_id) (td_columns (table_descriptor_ t)) with
  | Some c => Ok (c_type c)
  | None => Err LogFatal
  end.

(** [TableMetadata::columns] *)
Definition columns (t : TableMetadata) : list Column := table_columns_ t.

(** [TableMetadata::num_rows] and [TableMetadata::rows_per_item] *)
Definition num_rows (t : TableMetadata) : Z := td_num_rows (table_descriptor_ t).
Definition rows_per_item (t : TableMetadata) : Z := td_rows_per_item (table_descriptor_ t).

End TableMetadata.

(** [table_desc.set_id(table_id)] through the reference [table.get_descriptor()]. *)
Definition set_id (t : TableMetadata) (id : Z) : TableMetadata :=
  let d := table_descriptor_ t in
  mkTableMetadata
    (mkTableDescriptor id (td_name d) (td_num_rows d) (td_rows_per_item d) (td_columns d))
    (table_columns_ t).

(** ** Publishing a table: [write_new_table] *)

Section Publish.

(** The storage backend and the two writers [write_table_metadata] and
    [write_database_metadata] are declared outside db.cpp; they are taken
    as given.  A writer hands back the storage after the write, or
    nothing when the write did not succeed; a failed flush is fatal for the
    operation, which stops there. *)
Variable Storage : Type.
Variable write_table_metadata : Storage -> TableMetadata -> option Storage.
Variable write_database_metadata : Storage -> DatabaseMetadata -> option Storage.

(** The steps of a publish, as they happen. *)
Inductive event : Type :=
| EvAddTable (name : string) (id : Z)
| EvSetId (id : Z)
| EvWriteTable (t : TableMetadata) (done : bool)
| EvWriteDatabase (m : DatabaseMetadata) (done : bool).


(** What [write_new_table] works on: the backend and its two reference
    arguments, together with the steps taken so far. *)
Record world : Type := mkWorld {
  w_storage : Storage;
  w_meta : DatabaseMetadata;
  w_table : TableMetadata;
  w_trace : list event
}.

Definition M (A : Type) : Type := world -> res A * world.

Definition ret {A} (a : A) : M A := fun w => (Ok a, w).

Definition bind {A B} (c : M A) (k : A -> M B) : M B :=
  fun w => match c w with
           | (Ok a, w') => k a w'
           | (Err f, w') => (Err f, w')
           end.

#[local] Instance M_ret : MRet M := @ret.
#[local] Instance M_bind : MBind M := fun A B k c => bind c k.

Definition log (e : event) (w : world) : world :=
  mkWorld (w_storage w) (w_meta w) (w_table w) (w_trace w ++ [e])%list.

(** [meta.add_table(table.name())] *)
Definition do_add_table : M Z :=
  fun w =>
    let name := TableMetadata.name (w_table w) in
    let '(id, meta') := add_table (w_meta w) name in
    (Ok id, log (EvAddTable name id)
              (mkWorld (w_storage w) meta' (w_table w) (w_trace w))).

(** [table_desc.set_id(table_id)] *)
Definition do_set_id (id : Z) : M unit :=
  fun w => (Ok tt, log (EvSetId id)
              (mkWorld (w_storage w) (w_meta w) (set_id (w_table w) id) (w_trace w))).

(** [write_table_metadata(storage, table)] *)
Definition do_write_table : M unit :=
  fun w => match write_table_metadata (w_storage w) (w_table w) with
           | Some s' => (Ok tt, log (EvWriteTable (w_table w) true)
                                  (mkWorld s' (w_meta w) (w_table w) (w_trace w)))
           | None => (Err BackendFail, log (EvWriteTable (w_table w) false) w)
           end.

(** [write_database_metadata(storage, meta)] *)
Definition do_write_database : M unit :=
  fun w => match write_database_metadata (w_storage w) (w_meta w) with
           | Some s' => (Ok tt, log (EvWriteDatabase (w_meta w) true)
                                  (mkWorld s' (w_meta w) (w_table w) (w_trace w)))
           | None => (Err BackendFail, log (EvWriteDatabase (w_meta w) false) w)
           end.

(** [write_new_table(storage, meta, table)]; the two [LOG(INFO)] lines
    leave no trace in the model. *)
Definition write_new_table : M unit :=
  table_id ← do_add_table;
  do_set_id table_id;;
  do_write_table;;
  do_write_database.

(** A call on a backend [s], a catalog [m] and a table [t]. *)
Definition publish (s : Storage) (m : DatabaseMetadata) (t : TableMetadata)
  : res unit * world :=
  write_new_table (mkWorld s m t []).

End Publish.

Arguments mkWorld {Storage}.
Arguments w_storage {Storage}.
Arguments w_meta {Storage}.
Arguments w_table {Storage}.
Arguments w_trace {Storage}.

(** ** Definitions used by the statements *)

(** A run is cut short only by a remove. *)
Definition is_remove (o : op) : bool :=
  match o with
  | RemoveTable _ | RemoveJob _ => true
  | AddTable _ | AddJob _ => false
  end.

(** The catalog has issued [ct] table ids and [cj] job ids, counted without
    wrap-around, and every id it holds is one of them. *)
Record issued (ct cj : Z) (m : DatabaseMetadata) : Prop := mk_issued {
  is_ct : 0 <= ct;
  is_cj : 0 <= cj;
  is_next_table : next_table_id_ m = wrap32 ct;
  is_next_job : next_job_id_ m = wrap32 cj;
  is_tables : forall k, is_Some (table_names_ m !! k) -> 0 <= k < ct;
  is_jobs : forall k, is_Some (job_names_ m !! k) -> 0 <= k < cj
}.

(** [id] is the least key of [tbl] that carries [name]. *)
Definition first_named (tbl : gmap Z string) (name : string) (id : Z) : Prop :=
  tbl !! id = Some name /\ forall k, tbl !! k = Some name -> id <= k.

(** The row count [rows_in_table] reads off a task: the size of its first sample. *)
Definition first_sample_rows (task : Task) : Z :=
  match samples task with
  | s :: _ => Z.of_nat (length (ts_rows s))
  | [] => -1
  end.

(** The job of two tasks whose first samples hold one row and two rows. *)
Definition two_task_job : JobDescriptor :=
  mkJobDescriptor 0 "detect" 1 1 1 [mkColumn 7 "frame" VIDEO]
    [mkTask 5 [mkTableSample 0 [0]]; mkTask 6 [mkTableSample 1 [0; 1]]].

(** The table of the second scenario. *)
Definition index_frame_table : TableMetadata :=
  TableMetadata_of
    (mkTableDescriptor 0 "videos" 100 10 [mkColumn 0 "index" INT; mkColumn 1 "frame" VIDEO]).

(** Backends for worked examples: the storage is the list of the ids
    written so far (a table by its id, the catalog by its counter); the
    second backend refuses every table write, the third every catalog write. *)
Definition log_table_write (s : list Z) (t : TableMetadata) : option (list Z) :=
  Some (s ++ [TableMetadata.id t])%list.

Definition log_database_write (s : list Z) (m : DatabaseMetadata) : option (list Z) :=
  Some (s ++ [next_table_id_ m])%list.

Definition no_table_write (s : list Z) (t : TableMetadata) : option (list Z) := None.

Definition no_database_write (s : list Z) (m : DatabaseMetadata) : option (list Z) := None.


(** An unpublished table named "videos". *)
Definition videos_table : TableMetadata :=
  TableMetadata_of (mkTableDescriptor 0 "videos" 100 10 [mkColumn 0 "index" INT]).

(** A list of [(id, name)] entries whose ids strictly ascend. *)
Definition ascending_ids (l : list (Z * string)) : Prop :=
  StronglySorted (fun a b : Z * string => a.1 < b.1) l.

(** No two entries of an index carry the same name. *)
Definition unique_names (tbl : gmap Z string) : Prop :=
  forall i j n, tbl !! i = Some n -> tbl !! j = Some n -> i = j.

(** The first entry of a descriptor list that has the id [k]. *)
Definition first_with_id (k : Z) (l : list (Z * string)) : option (Z * string) :=
  find (fun kv => bool_decide (kv.1 = k)) l.

Fixpoint table_removes (ops : list op) : Z :=
  match ops with
  | [] => 0
  | RemoveTable _ :: ops' => 1 + table_removes ops'
  | _ :: ops' => table_removes ops'
  end.

Fixpoint job_removes (ops : list op) : Z :=
  match ops with
  | [] => 0
  | RemoveJob _ :: ops' => 1 + job_removes ops'
  | _ :: ops' => job_removes ops'
  end.

(** The sum the loop of [total_rows] builds, without wrap-around. *)
Definition rows_sum (tasks : list Task) : Z :=
  foldr (fun task acc => first_sample_rows task + acc) 0 tasks.

Section PublishAll.

Variable Storage : Type.
Variable write_table_metadata : Storage -> TableMetadata -> option Storage.
Variable write_database_metadata : Storage -> DatabaseMetadata -> option Storage.

(** [write_new_table] called on one table after the other, on the same
    backend and catalog; a failed write ends the process.  The result is the
    storage, the catalog and the tables as the calls left them. *)
Fixpoint publish_all (s : Storage) (m : DatabaseMetadata) (ts : list TableMetadata)
  : res (Storage * DatabaseMetadata * list TableMetadata) :=
  match ts with
  | [] => Ok (s, m, [])
  | t :: ts' =>
      match publish Storage write_table_metadata write_database_metadata s m t with
      | (Ok _, w) =>
          res_bind (publish_all (w_storage w) (w_meta w) ts')
            (fun '(s', m', out) => Ok (s', m', w_table w :: out))
      | (Err f, _) => Err f
      end
  end.

End PublishAll.

(** * Properties *)

(** ** Facts about [wrap32] and the outcome type *)

Lemma wrap32_id z : in_i32 z -> wrap32 z = z.
Proof.
  unfold in_i32, i32_min, i32_max, wrap32. intros Hz.
  rewrite Z.mod_small by lia. lia.
Qed.

Lemma wrap32_range z : in_i32 (wrap32 z).
Proof.
  unfold in_i32, i32_min, i32_max, wrap32.
  pose proof (Z.mod_pos_bound (z + 2147483648) 4294967296 ltac:(lia)). lia.
Qed.

Lemma wrap32_succ_ne z : wrap32 (z + 1) <> z.
Proof.
  intros Heq. pose proof (wrap32_range (z + 1)) as Hr. rewrite Heq in Hr.
  unfold in_i32, i32_min, i32_max in Hr.
  destruct (decide (z = 2147483647)) as [-> | Hne]; [discriminate Heq |].
  rewrite wrap32_id in Heq by (unfold in_i32, i32_min, i32_max; lia). lia.
Qed.

(** ** Facts about the entries of a map *)

Section Entries.
Context {V : Type}.
Implicit Types (m : gmap Z V) (k : Z) (v : V).

Lemma entries_perm m : entries m ≡ₚ map_to_list m.
Proof. apply merge_sort_Permutation. Qed.

Lemma elem_of_entries m k v : (k, v) ∈ entries m <-> m !! k = Some v.
Proof. rewrite entries_perm. apply elem_of_map_to_list. Qed.

Lemma NoDup_fst_entries m : NoDup (entries m).*1.
Proof. rewrite entries_perm. apply NoDup_fst_map_to_list. Qed.

Lemma list_to_map_entries m : list_to_map (entries m) = m.
Proof.
  rewrite <- (list_to_map_to_list m) at 2.
  apply list_to_map_proper; [apply NoDup_fst_entries | apply entries_perm].
Qed.

#[local] Instance key_le_total : Total (@key_le Z V Z.le).
Proof. intros a b. unfold key_le. lia. Qed.

#[local] Instance key_le_trans : Transitive (@key_le Z V Z.le).
Proof. intros a b c. unfold key_le. lia. Qed.

(** The iteration order is the ascending order of the keys. *)
Lemma entries_sorted m : StronglySorted (key_le Z.le) (entries m).
Proof. apply StronglySorted_merge_sort; apply _. Qed.
End Entries.

Lemma lookup_insert_all l (m0 : gmap Z string) k :
  insert_all l m0 !! k =
  match m0 !! k with
  | Some v => Some v
  | None => (list_to_map l : gmap Z string) !! k
  end.
Proof.
  revert m0. induction l as [| [k' v'] l IH]; intros m0; simpl.
  - rewrite lookup_empty. by destruct (m0 !! k).
  - rewrite IH. unfold map_insert_new.
    destruct (m0 !! k') as [w |] eqn:Hk'.
    + destruct (m0 !! k) as [v |] eqn:Hk; [done |].
      rewrite lookup_insert_ne; [done | congruence].
    + destruct (decide (k' = k)) as [-> | Hne].
      * by rewrite Hk', !lookup_insert_eq.
      * by rewrite !lookup_insert_ne.
Qed.

Lemma insert_all_entries (m : gmap Z string) : insert_all (entries m) ∅ = m.
Proof.
  apply map_eq. intros k.
  by rewrite lookup_insert_all, lookup_empty, list_to_map_entries.
Qed.

(** ** The catalog *)

(** Loading what [get_descriptor] exports gives back the object
    [get_descriptor] left behind. *)
Lemma DatabaseMetadata_of_get_descriptor m :
  DatabaseMetadata_of (get_descriptor m).1 = (get_descriptor m).2.
Proof.
  unfold DatabaseMetadata_of, get_descriptor. simpl.
  by rewrite !insert_all_entries.
Qed.

Lemma same_answers_fields a b :
  next_table_id_ a = next_table_id_ b ->
  next_job_id_ a = next_job_id_ b ->
  table_names_ a = table_names_ b ->
  job_names_ a = job_names_ b ->
  same_answers a b.
Proof.
  destruct a, b; simpl; intros -> -> -> ->.
  split; reflexivity.
Qed.

Lemma roundtrip_same_answers m :
  same_answers (DatabaseMetadata_of (get_descriptor m).1) m.
Proof.
  rewrite DatabaseMetadata_of_get_descriptor.
  by apply same_answers_fields.
Qed.

(** What the exported descriptor holds, whatever [descriptor_] held before. *)
Lemma get_descriptor_live m :
  let d := (get_descriptor m).1 in
  d_next_table_id d = next_table_id_ m /\
  d_next_job_id d = next_job_id_ m /\
  (forall id name, (id, name) ∈ d_tables d <-> table_names_ m !! id = Some name) /\
  (forall id name, (id, name) ∈ d_jobs d <-> job_names_ m !! id = Some name).
Proof.
  simpl. repeat split; try apply elem_of_entries.
Qed.

Lemma get_descriptor_ignores_cache m d0 :
  (get_descriptor (mkDatabaseMetadata d0 (next_table_id_ m) (next_job_id_ m)
                     (table_names_ m) (job_names_ m))).1 = (get_descriptor m).1.
Proof. reflexivity. Qed.

(** *** Runs of operations *)

Lemma run_app a b m :
  run (a ++ b) m =
  res_bind (run a m) (fun '(ra, m1) =>
  res_bind (run b m1) (fun '(rb, m2) => Ok ((ra ++ rb)%list, m2))).
Proof.
  revert m. induction a as [| o a IH]; intros m; simpl.
  - destruct (run b m) as [[rb m2] | f]; reflexivity.
  - destruct (apply_op m o) as [[r m1] | f]; simpl; [| reflexivity].
    rewrite IH. destruct (run a m1) as [[ra m2] | f]; simpl; [| reflexivity].
    destruct (run b m2) as [[rb m3] | f]; reflexivity.
Qed.

Lemma run_length ops : forall m replies m',
  run ops m = Ok (replies, m') -> length replies = length ops.
Proof.
  induction ops as [| o ops IH]; intros m replies m'; simpl.
  - intros [= <- _]. reflexivity.
  - destruct (apply_op m o) as [[r m1] | f]; simpl; [| discriminate].
    destruct (run ops m1) as [[rs m2] | f] eqn:Hrun; simpl; [| discriminate].
    intros [= <- _]. simpl. f_equal. eauto.
Qed.

Lemma run_err_remove ops : forall m f,
  run ops m = Err f -> existsb is_remove ops = true.
Proof.
  induction ops as [| o ops IH]; intros m f; simpl; [discriminate |].
  destruct o as [name | id | name | id]; simpl; try reflexivity.
  - destruct (run ops _) as [[rs m2] | f'] eqn:Hrun; simpl; [discriminate |].
    intros _. eauto.
  - destruct (run ops _) as [[rs m2] | f'] eqn:Hrun; simpl; [discriminate |].
    intros _. eauto.
Qed.

Lemma table_adds_nonneg ops : 0 <= table_adds ops.
Proof. induction ops as [| [] ops IH]; simpl; lia. Qed.

Lemma job_adds_nonneg ops : 0 <= job_adds ops.
Proof. induction ops as [| [] ops IH]; simpl; lia. Qed.

Lemma table_adds_app a b : table_adds (a ++ b) = table_adds a + table_adds b.
Proof. induction a as [| [] a IH]; simpl; lia. Qed.

Lemma job_adds_app a b : job_adds (a ++ b) = job_adds a + job_adds b.
Proof. induction a as [| [] a IH]; simpl; lia. Qed.

Lemma issued_new : issued 0 0 DatabaseMetadata_new.
Proof.
  split; simpl; try reflexivity; try lia;
    intros k [v Hv]; by rewrite lookup_empty in Hv.
Qed.

Lemma wrap32_small c : 0 <= c < 2147483648 -> wrap32 c = c.
Proof. intros Hc. apply wrap32_id. unfold in_i32, i32_min, i32_max. lia. Qed.

Lemma wrap32_wrap32_succ c : wrap32 (wrap32 c + 1) = wrap32 (c + 1).
Proof.
  unfold wrap32.
  replace ((c + 2147483648) mod 4294967296 - 2147483648 + 1 + 2147483648)
    with ((c + 2147483648) mod 4294967296 + 1) by lia.
  rewrite Zplus_mod_idemp_l. f_equal. f_equal. lia.
Qed.

Lemma issued_add_table ct cj m name :
  issued ct cj m -> ct < 2147483648 ->
  (add_table m name).1 = ct /\ issued (ct + 1) cj (add_table m name).2.
Proof.
  intros [] Hlt. simpl. split.
  - rewrite is_next_table0. apply wrap32_small. lia.
  - split; simpl; try lia; try assumption.
    + rewrite is_next_table0. apply wrap32_wrap32_succ.
    + intros k. rewrite is_next_table0, wrap32_small by lia.
      destruct (decide (ct = k)) as [-> | Hne]; [lia |].
      rewrite lookup_insert_ne by done. intros Hk. apply is_tables0 in Hk. lia.
Qed.

Lemma issued_add_job ct cj m name :
  issued ct cj m -> cj < 2147483648 ->
  (add_job m name).1 = cj /\ issued ct (cj + 1) (add_job m name).2.
Proof.
  intros [] Hlt. simpl. split.
  - rewrite is_next_job0. apply wrap32_small. lia.
  - split; simpl; try lia; try assumption.
    + rewrite is_next_job0. apply wrap32_wrap32_succ.
    + intros k. rewrite is_next_job0, wrap32_small by lia.
      destruct (decide (cj = k)) as [-> | Hne]; [lia |].
      rewrite lookup_insert_ne by done. intros Hk. apply is_jobs0 in Hk. lia.
Qed.

Lemma issued_remove_table ct cj m id m' :
  issued ct cj m -> remove_table m id = Ok m' -> 0 <= id < ct /\ issued ct cj m'.
Proof.
  intros [] Hrm. unfold remove_table, has_table in Hrm.
  case_bool_decide as Hin; [| discriminate]. injection Hrm as <-. split; [auto |].
  split; simpl; try assumption.
  intros k [v Hv]. apply lookup_delete_Some in Hv as [_ Hv]. eauto.
Qed.

Lemma issued_remove_job ct cj m id m' :
  issued ct cj m -> remove_job m id = Ok m' -> 0 <= id < cj /\ issued ct cj m'.
Proof.
  intros [] Hrm. unfold remove_job, has_job in Hrm.
  case_bool_decide as Hin; [| discriminate]. injection Hrm as <-. split; [auto |].
  split; simpl; try assumption.
  intros k [v Hv]. apply lookup_delete_Some in Hv as [_ Hv]. eauto.
Qed.

(** The ids a run issues continue the two counters, one by one. *)
Lemma run_issued ops : forall ct cj m replies m',
  issued ct cj m ->
  ct + table_adds ops <= 2147483648 ->
  cj + job_adds ops <= 2147483648 ->
  run ops m = Ok (replies, m') ->
  table_ids_of replies = seqZ ct (table_adds ops) /\
  job_ids_of replies = seqZ cj (job_adds ops) /\
  issued (ct + table_adds ops) (cj + job_adds ops) m'.
Proof.
  induction ops as [| o ops IH]; intros ct cj m replies m' Hinv Ht Hj; simpl.
  - intros [= <- <-]. rewrite !Z.add_0_r. auto.
  - pose proof (table_adds_nonneg ops). pose proof (job_adds_nonneg ops).
    destruct o as [name | id | name | id]; simpl in *.
    + destruct (issued_add_table ct cj m name Hinv ltac:(lia)) as [Hid Hinv1].
      simpl in Hid, Hinv1.
      destruct (run ops _) as [[rs m2] | f] eqn:Hrun; simpl; [| discriminate].
      intros [= <- <-].
      destruct (IH _ _ _ _ _ Hinv1 ltac:(lia) Hj Hrun) as (Hts & Hjs & Hinv2).
      simpl. rewrite Hid, Hts, Hjs, (seqZ_cons ct) by lia.
      replace (Z.pred (1 + table_adds ops)) with (table_adds ops) by lia.
      replace (ct + (1 + table_adds ops)) with (ct + 1 + table_adds ops) by lia.
      auto.
    + destruct (remove_table m id) as [m1 | f] eqn:Hrm; simpl; [| discriminate].
      destruct (issued_remove_table _ _ _ _ _ Hinv Hrm) as [_ Hinv1].
      destruct (run ops m1) as [[rs m2] | f] eqn:Hrun; simpl; [| discriminate].
      intros [= <- <-]. simpl. eauto.
    + destruct (issued_add_job ct cj m name Hinv ltac:(lia)) as [Hid Hinv1].
      simpl in Hid, Hinv1.
      destruct (run ops _) as [[rs m2] | f] eqn:Hrun; simpl; [| discriminate].
      intros [= <- <-].
      destruct (IH _ _ _ _ _ Hinv1 Ht ltac:(lia) Hrun) as (Hts & Hjs & Hinv2).
      simpl. rewrite Hid, Hts, Hjs, (seqZ_cons cj) by lia.
      replace (Z.pred (1 + job_adds ops)) with (job_adds ops) by lia.
      replace (cj + (1 + job_adds ops)) with (cj + 1 + job_adds ops) by lia.
      auto.
    + destruct (remove_job m id) as [m1 | f] eqn:Hrm; simpl; [| discriminate].
      destruct (issued_remove_job _ _ _ _ _ Hinv Hrm) as [_ Hinv1].
      destruct (run ops m1) as [[rs m2] | f] eqn:Hrun; simpl; [| discriminate].
      intros [= <- <-]. simpl. eauto.
Qed.

Lemma run_remove_table_split pre r post m replies m' :
  run (pre ++ RemoveTable r :: post) m = Ok (replies, m') ->
  exists ra m1 m2 rb,
    run pre m = Ok (ra, m1) /\ remove_table m1 r = Ok m2 /\ run post m2 = Ok (rb, m') /\
    drop (S (length pre)) replies = rb.
Proof.
  rewrite run_app.
  destruct (run pre m) as [[ra m1] | f] eqn:Hpre; simpl; [| discriminate].
  destruct (remove_table m1 r) as [m2 | f] eqn:Hrm; simpl; [| discriminate].
  destruct (run post m2) as [[rb m3] | f] eqn:Hpost; simpl; [| discriminate].
  intros [= <- <-]. exists ra, m1, m2, rb. split_and!; try done.
  apply run_length in Hpre. rewrite <- Hpre.
  replace (S (length ra)) with (length ra + 1)%nat by lia.
  by rewrite drop_app_add.
Qed.

Lemma run_remove_job_split pre r post m replies m' :
  run (pre ++ RemoveJob r :: post) m = Ok (replies, m') ->
  exists ra m1 m2 rb,
    run pre m = Ok (ra, m1) /\ remove_job m1 r = Ok m2 /\ run post m2 = Ok (rb, m') /\
    drop (S (length pre)) replies = rb.
Proof.
  rewrite run_app.
  destruct (run pre m) as [[ra m1] | f] eqn:Hpre; simpl; [| discriminate].
  destruct (remove_job m1 r) as [m2 | f] eqn:Hrm; simpl; [| discriminate].
  destruct (run post m2) as [[rb m3] | f] eqn:Hpost; simpl; [| discriminate].
  intros [= <- <-]. exists ra, m1, m2, rb. split_and!; try done.
  apply run_length in Hpre. rewrite <- Hpre.
  replace (S (length ra)) with (length ra + 1)%nat by lia.
  by rewrite drop_app_add.
Qed.

(** An id that a successful remove took out is below every id issued later. *)
Lemma removed_table_not_reissued ct cj m pre r post replies m' :
  issued ct cj m ->
  ct + table_adds (pre ++ RemoveTable r :: post) <= 2147483648 ->
  cj + job_adds (pre ++ RemoveTable r :: post) <= 2147483648 ->
  run (pre ++ RemoveTable r :: post) m = Ok (replies, m') ->
  r ∉ table_ids_of (drop (S (length pre)) replies).
Proof.
  intros Hinv Ht Hj Hrun.
  rewrite table_adds_app in Ht. rewrite job_adds_app in Hj. simpl in Ht, Hj.
  pose proof (table_adds_nonneg pre). pose proof (table_adds_nonneg post).
  pose proof (job_adds_nonneg pre). pose proof (job_adds_nonneg post).
  destruct (run_remove_table_split _ _ _ _ _ _ Hrun)
    as (ra & m1 & m2 & rb & Hpre & Hrm & Hpost & ->).
  destruct (run_issued pre _ _ _ _ _ Hinv ltac:(lia) ltac:(lia) Hpre) as (_ & _ & Hinv1).
  destruct (issued_remove_table _ _ _ _ _ Hinv1 Hrm) as [Hr Hinv2].
  destruct (run_issued post _ _ _ _ _ Hinv2 ltac:(lia) ltac:(lia) Hpost) as (-> & _ & _).
  rewrite elem_of_seqZ. lia.
Qed.

Lemma removed_job_not_reissued ct cj m pre r post replies m' :
  issued ct cj m ->
  ct + table_adds (pre ++ RemoveJob r :: post) <= 2147483648 ->
  cj + job_adds (pre ++ RemoveJob r :: post) <= 2147483648 ->
  run (pre ++ RemoveJob r :: post) m = Ok (replies, m') ->
  r ∉ job_ids_of (drop (S (length pre)) replies).
Proof.
  intros Hinv Ht Hj Hrun.
  rewrite table_adds_app in Ht. rewrite job_adds_app in Hj. simpl in Ht, Hj.
  pose proof (table_adds_nonneg pre). pose proof (table_adds_nonneg post).
  pose proof (job_adds_nonneg pre). pose proof (job_adds_nonneg post).
  destruct (run_remove_job_split _ _ _ _ _ _ Hrun)
    as (ra & m1 & m2 & rb & Hpre & Hrm & Hpost & ->).
  destruct (run_issued pre _ _ _ _ _ Hinv ltac:(lia) ltac:(lia) Hpre) as (_ & _ & Hinv1).
  destruct (issued_remove_job _ _ _ _ _ Hinv1 Hrm) as [Hr Hinv2].
  destruct (run_issued post _ _ _ _ _ Hinv2 ltac:(lia) ltac:(lia) Hpost) as (_ & -> & _).
  rewrite elem_of_seqZ. lia.
Qed.

(** C1, as the code has it.  On a fresh catalog, for every interleaving of
    adds and removes that issues at most 2^31 table ids and at most 2^31 job
    ids: the run is cut short only by a remove (so a run of adds alone always
    completes); the table ids handed out are 0, 1, 2, ... in call order, the
    k-th [add_table] returning k-1, and likewise the job ids; each counter
    holds the number of ids issued, stored as an [i32]; and an id taken out
    by [remove_table] ([remove_job]) is not among the ids any later
    [add_table] ([add_job]) of the run returns. *)
Theorem catalog_ids_in_call_order (ops : list op) :
  table_adds ops <= 2147483648 ->
  job_adds ops <= 2147483648 ->
  match run ops DatabaseMetadata_new with
  | Ok (replies, m) =>
      table_ids_of replies = seqZ 0 (table_adds ops) /\
      job_ids_of replies = seqZ 0 (job_adds ops) /\
      next_table_id_ m = wrap32 (table_adds ops) /\
      next_job_id_ m = wrap32 (job_adds ops) /\
      (forall pre r post, ops = (pre ++ RemoveTable r :: post)%list ->
         r ∉ table_ids_of (drop (S (length pre)) replies)) /\
      (forall pre r post, ops = (pre ++ RemoveJob r :: post)%list ->
         r ∉ job_ids_of (drop (S (length pre)) replies))
  | Err _ => existsb is_remove ops = true
  end.
Proof.
  intros Ht Hj.
  destruct (run ops DatabaseMetadata_new) as [[replies m] | f] eqn:Hrun;
    [| by eapply run_err_remove].
  destruct (run_issued ops _ _ _ _ _ issued_new ltac:(lia) ltac:(lia) Hrun)
    as (Hts & Hjs & Hinv).
  destruct Hinv. simpl in *.
  repeat split; try assumption.
  - intros pre r post ->.
    eapply (removed_table_not_reissued 0 0); eauto using issued_new; lia.
  - intros pre r post ->.
    eapply (removed_job_not_reissued 0 0); eauto using issued_new; lia.
Qed.

Lemma catalog_ids_in_call_order_witness :
  match run [AddTable "videos"; AddJob "detect"; AddTable "frames"; RemoveTable 0;
             AddTable "new"; RemoveJob 0; AddJob "track"] DatabaseMetadata_new with
  | Ok (replies, m) =>
      table_ids_of replies = [0; 1; 2] /\ job_ids_of replies = [0; 1] /\
      next_table_id_ m = 3 /\ next_job_id_ m = 2
  | Err _ => False
  end.
Proof.
  pose proof (catalog_ids_in_call_order
    [AddTable "videos"; AddJob "detect"; AddTable "frames"; RemoveTable 0;
     AddTable "new"; RemoveJob 0; AddJob "track"]) as H.
  simpl table_adds in H. simpl job_adds in H.
  specialize (H ltac:(lia) ltac:(lia)).
  destruct (run _ _) as [[replies m] | f] eqn:Hrun.
  - destruct H as (Ht & Hj & Hnt & Hnj & _). repeat split; assumption.
  - vm_compute in Hrun. discriminate Hrun.
Defined.

Lemma Z_iter_succ {A} (f : A -> A) (x : A) n :
  0 <= n -> Z.iter (Z.succ n) f x = f (Z.iter n f x).
Proof.
  intros Hn. destruct n as [| p | p]; [reflexivity | | lia].
  change (Z.succ (Z.pos p)) with (Z.pos (p + 1)).
  rewrite Pos.add_1_r. simpl. apply Pos.iter_succ.
Qed.

Lemma next_after_add_table_times name m c n :
  0 <= n -> next_table_id_ m = wrap32 c ->
  next_table_id_ (add_table_times n name m) = wrap32 (c + n).
Proof.
  intros Hn Hc. revert n Hn. apply natlike_ind.
  - by rewrite Z.add_0_r.
  - intros n Hn IH. unfold add_table_times in *.
    rewrite Z_iter_succ by done.
    set (m' := Z.iter n _ m) in *. unfold add_table. cbn [snd next_table_id_].
    rewrite IH, wrap32_wrap32_succ. f_equal. lia.
Qed.

(** C1, as stated, fails once the [i32] counter is exhausted: after 2^31
    calls of [add_table] on a fresh catalog the next call, the
    (2^31+1)-th, does not return 2^31 but -2^31. *)
Lemma add_table_after_2_31_calls :
  (add_table (add_table_times 2147483648 "t" DatabaseMetadata_new) "t").1 = -2147483648 /\
  (add_table (add_table_times 2147483648 "t" DatabaseMetadata_new) "t").1 <> 2147483648.
Proof.
  assert ((add_table (add_table_times 2147483648 "t" DatabaseMetadata_new) "t").1
          = -2147483648) as ->.
  { unfold add_table at 1. cbn [fst].
    rewrite (next_after_add_table_times "t" DatabaseMetadata_new 0) by done.
    reflexivity. }
  split; [reflexivity | discriminate].
Qed.

(** C5.  After any sequence of adds and removes applied to any catalog, the
    catalog rebuilt from what [get_descriptor] exports answers [has_table],
    [has_job], [get_table_id], [get_table_name], [get_job_id] and
    [get_job_name] as the original does, on every input, and has the same
    two counters; the exported descriptor carries the current counters and
    lists exactly the live [(id, name)] entries, whatever [descriptor_]
    held before the call. *)
Theorem catalog_roundtrip (m0 : DatabaseMetadata) (ops : list op)
    (replies : list reply) (m : DatabaseMetadata) :
  run ops m0 = Ok (replies, m) ->
  let d := (get_descriptor m).1 in
  same_answers (DatabaseMetadata_of d) m /\
  d_next_table_id d = next_table_id_ m /\
  d_next_job_id d = next_job_id_ m /\
  (forall id name, (id, name) ∈ d_tables d <-> table_names_ m !! id = Some name) /\
  (forall id name, (id, name) ∈ d_jobs d <-> job_names_ m !! id = Some name) /\
  (forall d0, (get_descriptor (mkDatabaseMetadata d0 (next_table_id_ m) (next_job_id_ m)
                                 (table_names_ m) (job_names_ m))).1 = d).
Proof.
  intros _ d. split; [apply roundtrip_same_answers |].
  destruct (get_descriptor_live m) as (H1 & H2 & H3 & H4).
  repeat split; try apply H3; try apply H4.
Qed.

Lemma catalog_roundtrip_witness :
  exists m,
    run [AddTable "videos"; AddJob "detect"; AddTable "frames"; RemoveTable 0]
        DatabaseMetadata_new = Ok ([TableId 0; JobId 0; TableId 1; Removed], m) /\
    same_answers (DatabaseMetadata_of (get_descriptor m).1) m /\
    d_tables (get_descriptor m).1 = [(1, "frames")] /\
    d_jobs (get_descriptor m).1 = [(0, "detect")].
Proof.
  eexists. split; [vm_compute; reflexivity |].
  split; [| split; vm_compute; reflexivity].
  eapply (catalog_roundtrip DatabaseMetadata_new
            [AddTable "videos"; AddJob "detect"; AddTable "frames"; RemoveTable 0]).
  vm_compute. reflexivity.
Defined.

(** *** Looking an id up by name *)

Lemma find_sorted_least {V} (p : Z * V -> bool) (l : list (Z * V)) kv :
  StronglySorted (key_le Z.le) l ->
  find p l = Some kv ->
  kv ∈ l /\ p kv = true /\ forall kv', kv' ∈ l -> p kv' = true -> kv.1 <= kv'.1.
Proof.
  induction 1 as [| a l Hs IH Hall]; simpl; [discriminate |].
  destruct (p a) eqn:Hpa.
  - intros [= <-]. split; [left |]. split; [done |].
    intros kv' Hin _. apply elem_of_cons in Hin as [-> | Hin]; [lia |].
    rewrite Forall_forall in Hall. by apply Hall.
  - intros Hf. destruct (IH Hf) as (Hin & Hp & Hleast).
    split; [by right |]. split; [done |].
    intros kv' Hin' Hp'. apply elem_of_cons in Hin' as [-> | Hin']; [congruence |].
    by apply Hleast.
Qed.

Lemma find_none_iff {A} (p : A -> bool) (l : list A) :
  find p l = None <-> forall x, x ∈ l -> p x = false.
Proof.
  induction l as [| a l IH]; simpl.
  - split; [intros _ x Hx; by apply elem_of_nil in Hx | done].
  - destruct (p a) eqn:Hpa.
    + split; [discriminate |]. intros H. specialize (H a ltac:(left)). congruence.
    + rewrite IH. split.
      * intros H x Hx. apply elem_of_cons in Hx as [-> | Hx]; auto.
      * intros H x Hx. apply H. by right.
Qed.

Lemma scan_id_entries (tbl : gmap Z string) (name : string) :
  ((forall id, tbl !! id <> Some name) -> scan_id name (entries tbl) = Err AssertFail) /\
  (forall id, scan_id name (entries tbl) = Ok id <-> first_named tbl name id /\ id <> -1) /\
  ((exists id, tbl !! id = Some name) -> tbl !! (-1) <> Some name ->
   exists id, scan_id name (entries tbl) = Ok id /\ tbl !! id = Some name) /\
  (forall f, scan_id name (entries tbl) = Err f -> f = AssertFail).
Proof.
  unfold scan_id.
  destruct (find (name_is name) (entries tbl)) as [[k v] |] eqn:Hfind.
  - destruct (find_sorted_least _ _ _ (entries_sorted tbl) Hfind) as (Hin & Hp & Hleast).
    apply elem_of_entries in Hin. unfold name_is in Hp. simpl in *.
    apply bool_decide_eq_true in Hp. subst v.
    assert (first_named tbl name k) as Hfirst.
    { split; [done |]. intros k' Hk'. apply elem_of_entries in Hk'.
      apply (Hleast (k', name) Hk'). unfold name_is. by apply bool_decide_eq_true. }
    split_and!.
    + intros Hnone. by destruct (Hnone k (proj1 Hfirst)).
    + intros id. case_bool_decide as Hk.
      * split; [discriminate |]. intros [[Hid Hl] Hne].
        destruct Hfirst as [Hk1 Hk2]. specialize (Hl _ Hk1). specialize (Hk2 _ Hid). lia.
      * split; [intros [= <-]; done |].
        intros [[Hid Hl] Hne]. f_equal.
        destruct Hfirst as [Hk1 Hk2]. specialize (Hl _ Hk1). specialize (Hk2 _ Hid). lia.
    + intros _ Hm1. case_bool_decide as Hk.
      * subst k. by destruct Hm1, Hfirst.
      * exists k. by destruct Hfirst.
    + intros f. case_bool_decide; [by intros [= <-] | discriminate].
  - rewrite find_none_iff in Hfind. rewrite bool_decide_eq_true_2 by done.
    assert (forall id, tbl !! id <> Some name) as Habsent.
    { intros id Hid. apply elem_of_entries in Hid. apply Hfind in Hid.
      unfold name_is in Hid. simpl in Hid. by apply bool_decide_eq_false in Hid. }
    split_and!.
    + done.
    + intros id. split; [discriminate |]. intros [[Hid _] _]. by destruct (Habsent id).
    + intros [id Hid]. by destruct (Habsent id).
    + by intros f [= <-].
Qed.

(** C7, as the code has it.  [get_table_id] fails fatally (a failed
    assertion, no value) whenever no table entry carries the name.  Whenever
    it returns, the id is that of the first entry met by the scan, the one
    with the least id among those carrying the name; it returns exactly
    when that id is not -1, the value the scan starts from and the final
    assertion rejects.  In particular it returns an id whose entry has the
    name whenever some entry has the name and none of them has id -1.
    [get_job_id] does the same on the job entries. *)
Theorem get_id_by_name (m : DatabaseMetadata) (name : string) :
  ((forall id, table_names_ m !! id <> Some name) -> get_table_id m name = Err AssertFail) /\
  (forall id, get_table_id m name = Ok id <->
              first_named (table_names_ m) name id /\ id <> -1) /\
  ((exists id, table_names_ m !! id = Some name) -> table_names_ m !! (-1) <> Some name ->
   exists id, get_table_id m name = Ok id /\ table_names_ m !! id = Some name) /\
  (forall f, get_table_id m name = Err f -> f = AssertFail) /\
  ((forall id, job_names_ m !! id <> Some name) -> get_job_id m name = Err AssertFail) /\
  (forall id, get_job_id m name = Ok id <->
              first_named (job_names_ m) name id /\ id <> -1) /\
  ((exists id, job_names_ m !! id = Some name) -> job_names_ m !! (-1) <> Some name ->
   exists id, get_job_id m name = Ok id /\ job_names_ m !! id = Some name) /\
  (forall f, get_job_id m name = Err f -> f = AssertFail).
Proof.
  unfold get_table_id, get_job_id.
  destruct (scan_id_entries (table_names_ m) name) as (T1 & T2 & T3 & T4).
  destruct (scan_id_entries (job_names_ m) name) as (J1 & J2 & J3 & J4).
  split_and!; assumption.
Qed.

Lemma get_id_by_name_witness :
  get_table_id DatabaseMetadata_new "videos" = Err AssertFail /\
  first_named (table_names_ (add_table (add_table DatabaseMetadata_new "videos").2 "frames").2)
    "frames" 1 /\
  exists id,
    get_job_id (add_job DatabaseMetadata_new "detect").2 "detect" = Ok id /\
    job_names_ (add_job DatabaseMetadata_new "detect").2 !! id = Some "detect".
Proof.
  split_and!.
  - apply (proj1 (get_id_by_name DatabaseMetadata_new "videos")). intros id.
    change (table_names_ DatabaseMetadata_new) with (∅ : gmap Z string).
    rewrite lookup_empty. discriminate.
  - apply (proj1 (proj2 (get_id_by_name
             (add_table (add_table DatabaseMetadata_new "videos").2 "frames").2 "frames"))).
    vm_compute. reflexivity.
  - destruct (get_id_by_name (add_job DatabaseMetadata_new "detect").2 "detect")
      as (_ & _ & _ & _ & _ & _ & H & _).
    apply H.
    + exists 0. vm_compute. reflexivity.
    + vm_compute. discriminate.
Defined.

(** C7, as stated, fails on a catalog loaded from a descriptor whose only
    table entry has id -1: the entry carries the name, yet the call is fatal. *)
Lemma get_table_id_minus_one :
  let m := DatabaseMetadata_of (mkDatabaseDescriptor 0 0 [(-1, "videos")] []) in
  table_names_ m !! (-1) = Some "videos" /\
  has_table_name m "videos" = true /\
  get_table_id m "videos" = Err AssertFail.
Proof. vm_compute. repeat split; reflexivity. Qed.

(** ** Item descriptors *)

(** C4, as the code has it.  Building a [VideoMetadata] from a payload
    always succeeds, whether or not the two keyframe sequences have the same
    length, and the two accessors return the sequences as the payload has
    them; in particular a payload with equal lengths loads. *)
Theorem video_metadata_loads_any_payload (d : VideoDescriptor) :
  exists v,
    VideoMetadata_of d = Ok v /\
    VideoMetadata.keyframe_positions v = vd_keyframe_positions d /\
    VideoMetadata.keyframe_byte_offsets v = vd_keyframe_byte_offsets d.
Proof. exists (mkVideoMetadata d). repeat split. Qed.

(** C4, as stated, fails: a payload with three keyframe positions and two
    byte offsets is not rejected; it loads, and the view hands out sequences
    of lengths 3 and 2. *)
Lemma video_metadata_mismatch_loads :
  exists v,
    VideoMetadata_of (mkVideoDescriptor 0 1 0 90 640 480 [0; 30; 60] [0; 15000]) = Ok v /\
    length (VideoMetadata.keyframe_positions v) = 3%nat /\
    length (VideoMetadata.keyframe_byte_offsets v) = 2%nat.
Proof. eexists. repeat split. Qed.

(** ** Jobs *)

Lemma fold_left_snoc {A B} (f : A -> B) (l : list A) (acc : list B) :
  fold_left (fun acc x => (acc ++ [f x])%list) l acc = (acc ++ map f l)%list.
Proof.
  revert acc. induction l as [| x l IH]; intros acc; simpl.
  - by rewrite app_nil_r.
  - by rewrite IH, <- app_assoc.
Qed.

Lemma collect_table_ids_map ts : collect_table_ids ts = map output_table_id ts.
Proof. unfold collect_table_ids. by rewrite fold_left_snoc. Qed.

Lemma table_ids_of_job job :
  JobMetadata.table_ids (JobMetadata_of job) = map output_table_id (jd_tasks job).
Proof.
  unfold JobMetadata_of, JobMetadata.table_ids.
  destruct (collect_columns (jd_columns job)) as [cols ids]. simpl.
  apply collect_table_ids_map.
Qed.

(** C6, as the code has it.  [JobMetadata.table_ids()] lists the output table of every
    task, one entry per task and in task order: an id is in the list exactly
    when some task targets it, and the list is free of duplicates exactly
    when no two tasks target the same table.  For two tasks targeting tables
    5 and 6 it is [5, 6]. *)
Theorem job_table_ids_per_task (job : JobDescriptor) :
  JobMetadata.table_ids (JobMetadata_of job) = map output_table_id (jd_tasks job) /\
  (forall id, id ∈ JobMetadata.table_ids (JobMetadata_of job) <->
              exists t, t ∈ jd_tasks job /\ output_table_id t = id) /\
  (NoDup (JobMetadata.table_ids (JobMetadata_of job)) <->
   NoDup (map output_table_id (jd_tasks job))) /\
  (forall s5 s6, jd_tasks job = [mkTask 5 s5; mkTask 6 s6] ->
                 JobMetadata.table_ids (JobMetadata_of job) = [5; 6]).
Proof.
  rewrite table_ids_of_job. split_and!; try done.
  - intros id. rewrite list_elem_of_fmap.
    split; [intros (t & -> & Ht) | intros (t & Ht & <-)]; eauto.
  - by intros s5 s6 ->.
Qed.

Lemma job_table_ids_per_task_witness :
  JobMetadata.table_ids (JobMetadata_of
    (mkJobDescriptor 0 "detect" 1 1 1 []
       [mkTask 5 [mkTableSample 0 [0; 1]]; mkTask 6 [mkTableSample 1 [0; 1]]])) = [5; 6].
Proof.
  eapply (proj2 (proj2 (proj2 (job_table_ids_per_task _)))). reflexivity.
Defined.

(** C6, as stated, fails: two tasks targeting the same table 5 make
    [JobMetadata.table_ids()] hold 5 twice. *)
Lemma job_table_ids_duplicate :
  let jm := JobMetadata_of
    (mkJobDescriptor 0 "detect" 1 1 1 []
       [mkTask 5 [mkTableSample 0 [0; 1]]; mkTask 5 [mkTableSample 1 [0; 1]]]) in
  JobMetadata.table_ids jm = [5; 5] /\ ~ NoDup (JobMetadata.table_ids jm).
Proof.
  split; [reflexivity |].
  change (~ NoDup [5; 5]). rewrite NoDup_cons. intros [Hnin _].
  apply Hnin. left.
Qed.

(** C3 on [two_task_job]: the first [JobMetadata.rows_in_table(5)] returns 2, the row
    count of the last task; [insert] kept the pair offered for the first
    task, so the second call returns the cached 1. *)
Theorem rows_in_table_twice_differs :
  rows_in_table_twice (JobMetadata_of two_task_job) 5 = Ok (2, 1).
Proof. vm_compute. reflexivity. Qed.

(** A call that finds the id in the cache answers from the cache alone:
    the task list is not read. *)
Lemma rows_in_table_cached m t v :
  rows_in_table_ m !! t = Some v ->
  JobMetadata.rows_in_table m t = if bool_decide (v = -1) then Err AssertFail else Ok (v, m).
Proof.
  intros Hv. unfold JobMetadata.rows_in_table. rewrite Hv. simpl.
  case_bool_decide; [done |]. by destruct m.
Qed.

(** What a scan leaves behind: [rows] ends as the count of the last task,
    while the cache keeps the first pair offered. *)
Lemma rows_scan_cache t tasks : forall rows cache r cache',
  JobMetadata.rows_scan t tasks rows cache = Ok (r, cache') ->
  cache' !! t = match cache !! t with
                | Some v => Some v
                | None => match tasks with
                          | [] => None
                          | task :: _ =>
                              match samples task with
                              | [] => None
                              | s :: _ => Some (Z.of_nat (length (ts_rows s)))
                              end
                          end
                end.
Proof.
  induction tasks as [| task rest IH]; intros rows cache r cache'; simpl.
  - intros [= _ <-]. by destruct (cache !! t).
  - destruct (samples task) as [| s ss]; [discriminate |].
    intros Hscan. apply IH in Hscan. rewrite Hscan. unfold map_insert_new.
    destruct (cache !! t) as [v |] eqn:Hc; [by rewrite Hc |].
    by rewrite lookup_insert_eq.
Qed.

Lemma first_sample_rows_nonneg task : samples task <> [] -> 0 <= first_sample_rows task.
Proof. unfold first_sample_rows. destruct (samples task); [done | lia]. Qed.

Lemma last_cons_default {A} (x : A) (l : list A) (d : A) :
  List.last (x :: l) d = List.last l x.
Proof.
  revert x d. induction l as [| y l IH]; intros x d; [reflexivity |].
  change (List.last (x :: y :: l) d) with (List.last (y :: l) d).
  by rewrite (IH y d), (IH y x).
Qed.

Lemma rows_scan_value t tasks : forall rows cache,
  Forall (fun task => samples task <> []) tasks ->
  exists cache',
    JobMetadata.rows_scan t tasks rows cache
    = Ok (List.last (map first_sample_rows tasks) rows, cache').
Proof.
  induction tasks as [| task rest IH]; intros rows cache Hall;
    cbn [JobMetadata.rows_scan map].
  - by eexists.
  - apply Forall_cons in Hall as [Hs Hall].
    rewrite last_cons_default. unfold first_sample_rows at 2.
    destruct (samples task) as [| s ss]; [done |].
    apply IH, Hall.
Qed.

Lemma last_Forall {A} (P : A -> Prop) (l : list A) (d : A) :
  l <> [] -> Forall P l -> P (List.last l d).
Proof.
  induction l as [| x l IH]; [done |]. intros _ Hall.
  apply Forall_cons in Hall as [Hx Hall].
  destruct l as [| y l]; [exact Hx |]. by apply IH.
Qed.

(** The general shape of the failure of C3: on a job whose tasks all have a
    sample, the first call returns the count of the last task and the second
    call the count of the first task. *)
Lemma rows_in_table_twice_first_last job t task0 rest :
  jd_tasks job = task0 :: rest ->
  Forall (fun task => samples task <> []) (task0 :: rest) ->
  rows_in_table_twice (JobMetadata_of job) t
  = Ok (List.last (map first_sample_rows (task0 :: rest)) (-1), first_sample_rows task0).
Proof.
  intros Htasks Hall.
  assert (0 <= List.last (map first_sample_rows (task0 :: rest)) (-1)) as Hlast.
  { apply (last_Forall (fun r => 0 <= r)); [done |].
    apply Forall_fmap. eapply Forall_impl; [exact Hall |].
    intros task. apply first_sample_rows_nonneg. }
  assert (0 <= first_sample_rows task0) as Hfirst.
  { apply first_sample_rows_nonneg. by apply Forall_cons in Hall as [? _]. }
  destruct (rows_scan_value t (task0 :: rest) (-1) ∅ Hall) as [cache' Hscan].
  pose proof (rows_scan_cache _ _ _ _ _ _ Hscan) as Hcache.
  rewrite lookup_empty in Hcache. fold (first_sample_rows task0) in Hcache.
  unfold rows_in_table_twice, JobMetadata.rows_in_table, JobMetadata_of.
  destruct (collect_columns (jd_columns job)) as [cols ids].
  cbn [rows_in_table_ job_descriptor_ job_columns_ column_ids_ table_ids_].
  rewrite lookup_empty, Htasks, Hscan. cbn [res_bind].
  rewrite bool_decide_eq_false_2 by lia.
  cbn [res_bind rows_in_table_ job_descriptor_ job_columns_ column_ids_ table_ids_].
  rewrite Hcache.
  remember (first_sample_rows task0) as r0 eqn:Hr0. unfold first_sample_rows in Hr0.
  destruct (samples task0) as [| s ss]; [lia |]. subst r0.
  cbn [res_bind]. by rewrite bool_decide_eq_false_2 by lia.
Qed.

(** C10 on the job built from [two_task_job], whose name index stores 7
    under "frame": [column_id("frame")] looks the value up and ends without
    returning it. *)
Theorem job_column_id_returns_nothing :
  column_ids_ (JobMetadata_of two_task_job) !! "frame" = Some 7 /\
  JobMetadata.column_id (JobMetadata_of two_task_job) "frame" = Err NoReturn.
Proof. vm_compute. split; reflexivity. Qed.

(** No call of [JobMetadata::column_id] hands a value back. *)
Lemma job_column_id_never_returns m name i : JobMetadata.column_id m name <> Ok i.
Proof.
  unfold JobMetadata.column_id, map_at. by destruct (column_ids_ m !! name).
Qed.

(** ** Tables *)

Lemma find_first {A} (p : A -> bool) (pre : list A) (c : A) (post : list A) :
  (forall c', c' ∈ pre -> p c' = false) -> p c = true ->
  find p (pre ++ c :: post) = Some c.
Proof.
  intros Hpre Hc. induction pre as [| a pre IH]; simpl.
  - by rewrite Hc.
  - rewrite (Hpre a) by left. apply IH. intros c' Hc'. apply Hpre. by right.
Qed.

Lemma find_absent {A} (p : A -> bool) (l : list A) :
  (forall c, c ∈ l -> p c = false) -> find p l = None.
Proof. apply find_none_iff. Qed.

Lemma has_id_false i c : c_id c <> i -> has_id i c = false.
Proof. intros H. unfold has_id. by apply bool_decide_eq_false. Qed.

Lemma has_name_false n c : c_name c <> n -> has_name n c = false.
Proof. intros H. unfold has_name. by apply bool_decide_eq_false. Qed.

Lemma has_id_self c : has_id (c_id c) c = true.
Proof. unfold has_id. by apply bool_decide_eq_true. Qed.

Lemma has_name_self c : has_name (c_name c) c = true.
Proof. unfold has_name. by apply bool_decide_eq_true. Qed.

(** C8, as the code has it.  When [c] is the first column of the list that
    has its id, [column_name] and [column_type] at that id return the name
    and the type of [c]; when [c] is the first column that has its name,
    [column_id] at that name returns the id of [c].  An id carried by no
    column makes [column_name] and [column_type] end in [LOG(FATAL)], and a
    name carried by no column does the same to [column_id]. *)
Theorem table_column_lookups (t : TableMetadata) :
  (forall pre c post,
     td_columns (table_descriptor_ t) = (pre ++ c :: post)%list ->
     (forall c', c' ∈ pre -> c_id c' <> c_id c) ->
     TableMetadata.column_name t (c_id c) = Ok (c_name c) /\
     TableMetadata.column_type t (c_id c) = Ok (c_type c)) /\
  (forall pre c post,
     td_columns (table_descriptor_ t) = (pre ++ c :: post)%list ->
     (forall c', c' ∈ pre -> c_name c' <> c_name c) ->
     TableMetadata.column_id t (c_name c) = Ok (c_id c)) /\
  (forall i,
     (forall c, c ∈ td_columns (table_descriptor_ t) -> c_id c <> i) ->
     TableMetadata.column_name t i = Err LogFatal /\
     TableMetadata.column_type t i = Err LogFatal) /\
  (forall n,
     (forall c, c ∈ td_columns (table_descriptor_ t) -> c_name c <> n) ->
     TableMetadata.column_id t n = Err LogFatal).
Proof.
  unfold TableMetadata.column_name, TableMetadata.column_type, TableMetadata.column_id.
  split_and!.
  - intros pre c post -> Hpre.
    rewrite (find_first (has_id (c_id c)) pre c post); auto using has_id_false, has_id_self.
  - intros pre c post -> Hpre.
    rewrite (find_first (has_name (c_name c)) pre c post);
      auto using has_name_false, has_name_self.
  - intros i Hi. rewrite (find_absent (has_id i)); auto using has_id_false.
  - intros n Hn. rewrite (find_absent (has_name n)); auto using has_name_false.
Qed.

Lemma table_column_lookups_witness :
  TableMetadata.column_id index_frame_table "frame" = Ok 1 /\
  TableMetadata.column_type index_frame_table 1 = Ok VIDEO /\
  TableMetadata.column_name index_frame_table 99 = Err LogFatal.
Proof.
  destruct (table_column_lookups index_frame_table) as (Hid & Hname & Hnoid & Hnoname).
  assert (forall c', c' ∈ [mkColumn 0 "index" INT] -> c_id c' <> 1) as H1.
  { intros c' Hc'. apply list_elem_of_singleton in Hc' as ->. discriminate. }
  assert (forall c', c' ∈ [mkColumn 0 "index" INT] -> c_name c' <> "frame") as H2.
  { intros c' Hc'. apply list_elem_of_singleton in Hc' as ->. discriminate. }
  split_and!.
  - exact (Hname [mkColumn 0 "index" INT] (mkColumn 1 "frame" VIDEO) [] eq_refl H2).
  - exact (proj2 (Hid [mkColumn 0 "index" INT] (mkColumn 1 "frame" VIDEO) [] eq_refl H1)).
  - apply Hnoid. intros c Hc. simpl in Hc.
    apply elem_of_cons in Hc as [-> | Hc]; [discriminate |].
    apply list_elem_of_singleton in Hc as ->. discriminate.
Defined.

(** C8, as stated, fails when two columns share an id or a name: the list
    holds the column {0, "b", VIDEO}, yet the lookups at its id answer with
    the earlier column {0, "a", INT}, and likewise for a shared name. *)
Lemma table_column_lookups_shadowed :
  let t := TableMetadata_of
    (mkTableDescriptor 0 "videos" 100 10
       [mkColumn 0 "a" INT; mkColumn 0 "b" VIDEO; mkColumn 1 "a" VIDEO]) in
  mkColumn 0 "b" VIDEO ∈ td_columns (table_descriptor_ t) /\
  TableMetadata.column_name t 0 = Ok "a" /\ TableMetadata.column_name t 0 <> Ok "b" /\
  TableMetadata.column_type t 0 = Ok INT /\ TableMetadata.column_type t 0 <> Ok VIDEO /\
  mkColumn 1 "a" VIDEO ∈ td_columns (table_descriptor_ t) /\
  TableMetadata.column_id t "a" = Ok 0 /\ TableMetadata.column_id t "a" <> Ok 1.
Proof.
  simpl. split_and!; try reflexivity; try discriminate.
  - right. left.
  - right. right. left.
Qed.

(** ** Publishing a table *)


Section PublishProperties.

Variable Storage : Type.
Variable write_table_metadata : Storage -> TableMetadata -> option Storage.
Variable write_database_metadata : Storage -> DatabaseMetadata -> option Storage.

Local Abbreviation call := (publish Storage write_table_metadata write_database_metadata).

(** What a publish leaves behind, spelled out for the three ways it can go. *)
Lemma publish_outcome (s : Storage) (m : DatabaseMetadata) (t : TableMetadata) :
  let name := TableMetadata.name t in
  let id := next_table_id_ m in
  let m' := (add_table m name).2 in
  let t' := set_id t id in
  call s m t =
  match write_table_metadata s t' with
  | None =>
      (Err BackendFail,
       mkWorld s m' t' [EvAddTable name id; EvSetId id; EvWriteTable t' false])
  | Some s1 =>
      match write_database_metadata s1 m' with
      | None =>
          (Err BackendFail,
           mkWorld s1 m' t'
             [EvAddTable name id; EvSetId id; EvWriteTable t' true;
              EvWriteDatabase m' false])
      | Some s2 =>
          (Ok tt,
           mkWorld s2 m' t'
             [EvAddTable name id; EvSetId id; EvWriteTable t' true;
              EvWriteDatabase m' true])
      end
  end.
Proof.
  intros name id m' t'.
  unfold publish, write_new_table, mbind, M_bind, bind,
    do_add_table, do_set_id, do_write_table, do_write_database, log.
  cbn -[add_table set_id].
  fold name id. change (add_table m name) with (id, m'). cbn -[add_table set_id].
  fold t'.
  destruct (write_table_metadata s t') as [s1 |]; cbn -[add_table set_id]; [| reflexivity].
  destruct (write_database_metadata s1 m') as [s2 |]; reflexivity.
Qed.




End PublishProperties.

(** A publish that goes through: the table, stamped 0, is written first and
    the catalog, whose counter is then 1, second. *)
Example publish_goes_through :
  let out := publish (list Z) log_table_write log_database_write []
               DatabaseMetadata_new videos_table in
  out.1 = Ok tt /\ w_storage out.2 = [0; 1] /\ TableMetadata.id (w_table out.2) = 0 /\
  get_table_id (w_meta out.2) "videos" = Ok 0.
Proof. vm_compute. repeat split; reflexivity. Qed.

(** A publish whose table write fails: nothing is written, the catalog keeps
    id 0 as issued, and publishing again on it stamps the table 1. *)
Example publish_table_write_fails :
  let out := publish (list Z) no_table_write log_database_write []
               DatabaseMetadata_new videos_table in
  let again := publish (list Z) log_table_write log_database_write (w_storage out.2)
                 (w_meta out.2) videos_table in
  out.1 = Err BackendFail /\ w_storage out.2 = [] /\
  next_table_id_ (w_meta out.2) = 1 /\ has_table (w_meta out.2) 0 = true /\
  again.1 = Ok tt /\ TableMetadata.id (w_table again.2) = 1 /\ w_storage again.2 = [1; 2].
Proof. vm_compute. repeat split; reflexivity. Qed.

(** A publish whose catalog write fails: the table descriptor is in the
    storage, the catalog is not, and id 0 stays issued. *)
Example publish_database_write_fails :
  let out := publish (list Z) log_table_write no_database_write []
               DatabaseMetadata_new videos_table in
  out.1 = Err BackendFail /\ w_storage out.2 = [0] /\
  next_table_id_ (w_meta out.2) = 1 /\ has_table (w_meta out.2) 0 = true.
Proof. vm_compute. repeat split; reflexivity. Qed.

(** The first scenario of the catalog, run. *)
Example catalog_scenario :
  let '(a, m1) := add_table DatabaseMetadata_new "videos" in
  let '(b, m2) := add_table m1 "frames" in
  a = 0 /\ b = 1 /\ has_table_name m2 "videos" = true /\
  get_table_id m2 "videos" = Ok 0 /\
  match remove_table m2 0 with
  | Ok m3 => has_table m3 0 = false /\ (add_table m3 "new").1 = 2
  | Err _ => False
  end.
Proof. vm_compute. repeat split; reflexivity. Qed.

(** * Further properties of the catalog *)

Lemma existsb_name_is (tbl : gmap Z string) (name : string) :
  existsb (name_is name) (entries tbl) = true <-> exists id, tbl !! id = Some name.
Proof.
  rewrite existsb_exists. split.
  - intros ([k v] & Hin & Hp). apply list_elem_of_In, elem_of_entries in Hin.
    unfold name_is in Hp. apply bool_decide_eq_true in Hp. simpl in Hp. subst v. eauto.
  - intros [id Hid]. exists (id, name). split.
    + by apply list_elem_of_In, elem_of_entries.
    + unfold name_is. by apply bool_decide_eq_true.
Qed.

(** X1.  [has_table(name)] is true exactly when some table entry carries
    the name; when it is false [get_table_id(name)] fails its assertion, and
    whenever [get_table_id(name)] returns an id, both [has_table(name)] and
    [has_table(id)] are true.  The same holds for the job accessors. *)
Theorem has_by_name_agrees (m : DatabaseMetadata) (name : string) :
  (has_table_name m name = true <-> exists id, table_names_ m !! id = Some name) /\
  (has_table_name m name = false -> get_table_id m name = Err AssertFail) /\
  (forall id, get_table_id m name = Ok id ->
              has_table_name m name = true /\ has_table m id = true) /\
  (has_job_name m name = true <-> exists id, job_names_ m !! id = Some name) /\
  (has_job_name m name = false -> get_job_id m name = Err AssertFail) /\
  (forall id, get_job_id m name = Ok id ->
              has_job_name m name = true /\ has_job m id = true).
Proof.
  unfold has_table_name, has_job_name, get_table_id, get_job_id, has_table, has_job.
  destruct (scan_id_entries (table_names_ m) name) as (T1 & T2 & _ & _).
  destruct (scan_id_entries (job_names_ m) name) as (J1 & J2 & _ & _).
  split_and!.
  - apply existsb_name_is.
  - intros Hf. apply T1. intros id Hid.
    assert (existsb (name_is name) (entries (table_names_ m)) = true) as Ht
      by (apply existsb_name_is; eauto).
    congruence.
  - intros id Hid. apply T2 in Hid as [[Hid _] _]. split.
    + apply existsb_name_is. eauto.
    + apply bool_decide_eq_true. eauto.
  - apply existsb_name_is.
  - intros Hf. apply J1. intros id Hid.
    assert (existsb (name_is name) (entries (job_names_ m)) = true) as Ht
      by (apply existsb_name_is; eauto).
    congruence.
  - intros id Hid. apply J2 in Hid as [[Hid _] _]. split.
    + apply existsb_name_is. eauto.
    + apply bool_decide_eq_true. eauto.
Qed.

Lemma has_by_name_agrees_witness :
  has_table_name (add_table DatabaseMetadata_new "videos").2 "frames" = false /\
  get_table_id (add_table DatabaseMetadata_new "videos").2 "frames" = Err AssertFail /\
  has_table (add_table DatabaseMetadata_new "videos").2 0 = true.
Proof.
  destruct (has_by_name_agrees (add_table DatabaseMetadata_new "videos").2 "frames")
    as (_ & Hfalse & _).
  destruct (has_by_name_agrees (add_table DatabaseMetadata_new "videos").2 "videos")
    as (_ & _ & Hok & _).
  split_and!.
  - vm_compute. reflexivity.
  - apply Hfalse. vm_compute. reflexivity.
  - apply (Hok 0). vm_compute. reflexivity.
Defined.

(** X2.  [add_table] never fails and returns the counter's value; afterwards
    that id resolves to the new name (replacing whatever entry the id had),
    every other id resolves as before, and nothing on the job side changes. *)
Theorem add_table_then_lookup (m : DatabaseMetadata) (name : string) :
  let id := (add_table m name).1 in
  let m' := (add_table m name).2 in
  id = next_table_id_ m /\
  get_table_name m' id = Ok name /\
  has_table m' id = true /\
  has_table_name m' name = true /\
  (forall id', id' <> id ->
     get_table_name m' id' = get_table_name m id' /\ has_table m' id' = has_table m id') /\
  (forall n, has_job_name m' n = has_job_name m n /\ get_job_id m' n = get_job_id m n) /\
  (forall j, get_job_name m' j = get_job_name m j /\ has_job m' j = has_job m j) /\
  next_job_id_ m' = next_job_id_ m.
Proof.
  intros id m'. subst id m'.
  unfold get_table_name, has_table, has_table_name, map_at. cbn [add_table fst snd table_names_].
  split_and!; try reflexivity.
  - by rewrite lookup_insert_eq.
  - apply bool_decide_eq_true. rewrite lookup_insert_eq. eauto.
  - apply existsb_name_is. exists (next_table_id_ m). apply lookup_insert_eq.
  - intros id' Hne. by rewrite lookup_insert_ne.
  - done.
  - done.
Qed.

(** X3.  [add_job] does for jobs what [add_table] does for tables. *)
Theorem add_job_then_lookup (m : DatabaseMetadata) (name : string) :
  let id := (add_job m name).1 in
  let m' := (add_job m name).2 in
  id = next_job_id_ m /\
  get_job_name m' id = Ok name /\
  has_job m' id = true /\
  has_job_name m' name = true /\
  (forall id', id' <> id ->
     get_job_name m' id' = get_job_name m id' /\ has_job m' id' = has_job m id') /\
  (forall n, has_table_name m' n = has_table_name m n /\
             get_table_id m' n = get_table_id m n) /\
  (forall t, get_table_name m' t = get_table_name m t /\ has_table m' t = has_table m t) /\
  next_table_id_ m' = next_table_id_ m.
Proof.
  intros id m'. subst id m'.
  unfold get_job_name, has_job, has_job_name, map_at. cbn [add_job fst snd job_names_].
  split_and!; try reflexivity.
  - by rewrite lookup_insert_eq.
  - apply bool_decide_eq_true. rewrite lookup_insert_eq. eauto.
  - apply existsb_name_is. exists (next_job_id_ m). apply lookup_insert_eq.
  - intros id' Hne. by rewrite lookup_insert_ne.
  - done.
  - done.
Qed.

Lemma add_table_then_lookup_witness :
  get_table_name (add_table (add_table DatabaseMetadata_new "videos").2 "frames").2 0
  = Ok "videos".
Proof.
  destruct (add_table_then_lookup (add_table DatabaseMetadata_new "videos").2 "frames")
    as (_ & _ & _ & _ & Hother & _).
  destruct (Hother 0) as [Hname _]; [vm_compute; discriminate |].
  rewrite Hname. vm_compute. reflexivity.
Defined.

Lemma add_job_then_lookup_witness :
  get_job_name (add_job (add_job DatabaseMetadata_new "detect").2 "track").2 0
  = Ok "detect".
Proof.
  destruct (add_job_then_lookup (add_job DatabaseMetadata_new "detect").2 "track")
    as (_ & _ & _ & _ & Hother & _).
  destruct (Hother 0) as [Hname _]; [vm_compute; discriminate |].
  rewrite Hname. vm_compute. reflexivity.
Defined.

(** X4.  [remove_table(id)] fails, on its assertion, exactly when the id is
    not registered.  When it succeeds the id is gone ([has_table(id)] is
    false, [get_table_name(id)] throws), every other id resolves as before,
    a name is still found exactly when another id carries it, and neither
    counter nor any job entry has changed. *)
Theorem remove_table_then_lookup (m : DatabaseMetadata) (id : Z) :
  (has_table m id = false -> remove_table m id = Err AssertFail) /\
  (has_table m id = true -> exists m', remove_table m id = Ok m') /\
  (forall m', remove_table m id = Ok m' ->
     has_table m' id = false /\
     get_table_name m' id = Err OutOfRange /\
     (forall id', id' <> id ->
        get_table_name m' id' = get_table_name m id' /\
        has_table m' id' = has_table m id') /\
     (forall n, has_table_name m' n = true <->
                exists id', id' <> id /\ table_names_ m !! id' = Some n) /\
     next_table_id_ m' = next_table_id_ m /\
     next_job_id_ m' = next_job_id_ m /\
     job_names_ m' = job_names_ m).
Proof.
  unfold remove_table. split_and!.
  - by intros ->.
  - intros ->. eauto.
  - intros m'. destruct (has_table m id); [| discriminate]. intros [= <-].
    unfold has_table, get_table_name, has_table_name, map_at. cbn [table_names_].
    split_and!; try reflexivity.
    + apply bool_decide_eq_false. rewrite lookup_delete_eq. by intros [? ?].
    + by rewrite lookup_delete_eq.
    + intros id' Hne. by rewrite lookup_delete_ne.
    + intros n. rewrite existsb_name_is. split.
      * intros [id' Hid']. apply lookup_delete_Some in Hid' as [Hne Hid']. eauto.
      * intros (id' & Hne & Hid'). exists id'. apply lookup_delete_Some. eauto.
Qed.

Lemma remove_table_then_lookup_witness :
  remove_table DatabaseMetadata_new 0 = Err AssertFail /\
  exists m', remove_table (add_table DatabaseMetadata_new "videos").2 0 = Ok m' /\
             has_table m' 0 = false.
Proof.
  split.
  - apply (proj1 (remove_table_then_lookup DatabaseMetadata_new 0)).
    vm_compute. reflexivity.
  - destruct (remove_table_then_lookup (add_table DatabaseMetadata_new "videos").2 0)
      as (_ & Hsome & Hafter).
    destruct Hsome as [m' Hm']; [vm_compute; reflexivity |].
    exists m'. split; [exact Hm' |]. apply (Hafter m' Hm').
Defined.

(** X5.  [remove_job] does for jobs what [remove_table] does for tables. *)
Theorem remove_job_then_lookup (m : DatabaseMetadata) (id : Z) :
  (has_job m id = false -> remove_job m id = Err AssertFail) /\
  (has_job m id = true -> exists m', remove_job m id = Ok m') /\
  (forall m', remove_job m id = Ok m' ->
     has_job m' id = false /\
     get_job_name m' id = Err OutOfRange /\
     (forall id', id' <> id ->
        get_job_name m' id' = get_job_name m id' /\
        has_job m' id' = has_job m id') /\
     (forall n, has_job_name m' n = true <->
                exists id', id' <> id /\ job_names_ m !! id' = Some n) /\
     next_table_id_ m' = next_table_id_ m /\
     next_job_id_ m' = next_job_id_ m /\
     table_names_ m' = table_names_ m).
Proof.
  unfold remove_job. split_and!.
  - by intros ->.
  - intros ->. eauto.
  - intros m'. destruct (has_job m id); [| discriminate]. intros [= <-].
    unfold has_job, get_job_name, has_job_name, map_at. cbn [job_names_].
    split_and!; try reflexivity.
    + apply bool_decide_eq_false. rewrite lookup_delete_eq. by intros [? ?].
    + by rewrite lookup_delete_eq.
    + intros id' Hne. by rewrite lookup_delete_ne.
    + intros n. rewrite existsb_name_is. split.
      * intros [id' Hid']. apply lookup_delete_Some in Hid' as [Hne Hid']. eauto.
      * intros (id' & Hne & Hid'). exists id'. apply lookup_delete_Some. eauto.
Qed.

Lemma remove_job_then_lookup_witness :
  remove_job DatabaseMetadata_new 0 = Err AssertFail /\
  exists m', remove_job (add_job DatabaseMetadata_new "detect").2 0 = Ok m' /\
             has_job m' 0 = false.
Proof.
  split.
  - apply (proj1 (remove_job_then_lookup DatabaseMetadata_new 0)).
    vm_compute. reflexivity.
  - destruct (remove_job_then_lookup (add_job DatabaseMetadata_new "detect").2 0)
      as (_ & Hsome & Hafter).
    destruct Hsome as [m' Hm']; [vm_compute; reflexivity |].
    exists m'. split; [exact Hm' |]. apply (Hafter m' Hm').
Defined.

(** X6.  Removing the table just added always succeeds.  When the id was
    free before the add, the entries are back to what they were, so every
    table accessor answers as before the add; the counter is not: it stays
    past the id. *)
Theorem add_then_remove_table (m : DatabaseMetadata) (name : string) :
  has_table m (next_table_id_ m) = false ->
  exists m',
    remove_table (add_table m name).2 (add_table m name).1 = Ok m' /\
    table_names_ m' = table_names_ m /\
    job_names_ m' = job_names_ m /\
    (forall n, has_table_name m' n = has_table_name m n /\
               get_table_id m' n = get_table_id m n) /\
    (forall i, has_table m' i = has_table m i /\
               get_table_name m' i = get_table_name m i) /\
    next_table_id_ m' = wrap32 (next_table_id_ m + 1) /\
    next_table_id_ m' <> next_table_id_ m.
Proof.
  intros Hfree. unfold has_table in Hfree. apply bool_decide_eq_false in Hfree.
  assert (table_names_ m !! next_table_id_ m = None) as Hnone.
  { destruct (table_names_ m !! next_table_id_ m) eqn:E; [| done].
    destruct Hfree. eauto. }
  unfold remove_table, has_table. cbn [add_table fst snd table_names_].
  rewrite bool_decide_eq_true_2 by (rewrite lookup_insert_eq; eauto).
  eexists. split; [reflexivity |].
  unfold has_table_name, get_table_id, has_table, get_table_name.
  cbn [table_names_ job_names_ next_table_id_].
  rewrite delete_insert_id by done.
  split_and!; try done. apply wrap32_succ_ne.
Qed.

Lemma add_then_remove_table_witness :
  exists m',
    remove_table (add_table DatabaseMetadata_new "videos").2 0 = Ok m' /\
    table_names_ m' = table_names_ DatabaseMetadata_new /\
    next_table_id_ m' = 1.
Proof.
  destruct (add_then_remove_table DatabaseMetadata_new "videos")
    as (m' & Hrm & Ht & _ & _ & _ & Hn & _); [vm_compute; reflexivity |].
  exists m'. split_and!; [exact Hrm | exact Ht | exact Hn].
Defined.

(** X7.  The id [get_table_id(name)] returns resolves back to the name with
    [get_table_name].  Conversely, when [get_table_name(id)] gives a name
    that no other entry carries and the id is not -1,
    [get_table_id] of that name gives back the id. *)
Theorem table_id_name_round_trip (m : DatabaseMetadata) :
  (forall name id, get_table_id m name = Ok id -> get_table_name m id = Ok name) /\
  (forall id name,
     get_table_name m id = Ok name ->
     id <> -1 ->
     (forall j, table_names_ m !! j = Some name -> j = id) ->
     get_table_id m name = Ok id) /\
  (forall name id, get_job_id m name = Ok id -> get_job_name m id = Ok name) /\
  (forall id name,
     get_job_name m id = Ok name ->
     id <> -1 ->
     (forall j, job_names_ m !! j = Some name -> j = id) ->
     get_job_id m name = Ok id).
Proof.
  unfold get_table_id, get_table_name, get_job_id, get_job_name, map_at.
  split_and!.
  - intros name id Hid.
    apply (proj1 (proj2 (scan_id_entries (table_names_ m) name))) in Hid
      as [[-> _] _]. reflexivity.
  - intros id name Hname Hne Huniq.
    destruct (table_names_ m !! id) as [n |] eqn:Hid; [| discriminate].
    injection Hname as ->.
    apply (proj1 (proj2 (scan_id_entries (table_names_ m) name))).
    split; [split; [done |] | done].
    intros k Hk. apply Huniq in Hk. lia.
  - intros name id Hid.
    apply (proj1 (proj2 (scan_id_entries (job_names_ m) name))) in Hid
      as [[-> _] _]. reflexivity.
  - intros id name Hname Hne Huniq.
    destruct (job_names_ m !! id) as [n |] eqn:Hid; [| discriminate].
    injection Hname as ->.
    apply (proj1 (proj2 (scan_id_entries (job_names_ m) name))).
    split; [split; [done |] | done].
    intros k Hk. apply Huniq in Hk. lia.
Qed.

Lemma table_id_name_round_trip_witness :
  get_table_name (add_table (add_table DatabaseMetadata_new "videos").2 "frames").2 1
  = Ok "frames" /\
  get_job_id (add_job DatabaseMetadata_new "detect").2 "detect" = Ok 0.
Proof.
  split.
  - apply (proj1 (table_id_name_round_trip
                    (add_table (add_table DatabaseMetadata_new "videos").2 "frames").2)).
    vm_compute. reflexivity.
  - apply (proj2 (proj2 (proj2 (table_id_name_round_trip
                                  (add_job DatabaseMetadata_new "detect").2)))).
    + vm_compute. reflexivity.
    + discriminate.
    + intros j. cbn [add_job snd job_names_ DatabaseMetadata_new next_job_id_].
      destruct (decide (j = 0)) as [-> | Hj]; [done |].
      rewrite lookup_insert_ne, lookup_empty by done. discriminate.
Defined.

(** *** Loading a descriptor *)

Lemma lookup_list_to_map_find (l : list (Z * string)) (k : Z) :
  (list_to_map l : gmap Z string) !! k = snd <$> first_with_id k l.
Proof.
  unfold first_with_id. induction l as [| [k' v'] l IH]; [apply lookup_empty |].
  cbn [list_to_map foldr find fst snd]. case_bool_decide as Hk.
  - simpl in Hk. subst k'. by rewrite lookup_insert_eq.
  - simpl in Hk. by rewrite lookup_insert_ne.
Qed.

Lemma lookup_insert_all_empty (l : list (Z * string)) (k : Z) :
  insert_all l ∅ !! k = snd <$> first_with_id k l.
Proof. by rewrite lookup_insert_all, lookup_empty, lookup_list_to_map_find. Qed.

(** X8.  A catalog built from a descriptor takes the two counters as they
    are and, for every id, the name of the first table (job) entry of the
    descriptor with that id; later entries repeating an id are dropped, and
    an id with no entry is not registered. *)
Theorem descriptor_first_entry_wins (d : DatabaseDescriptor) :
  let m := DatabaseMetadata_of d in
  next_table_id_ m = d_next_table_id d /\
  next_job_id_ m = d_next_job_id d /\
  (forall id, get_table_name m id =
              match first_with_id id (d_tables d) with
              | Some kv => Ok kv.2
              | None => Err OutOfRange
              end) /\
  (forall id, has_table m id = bool_decide (is_Some (first_with_id id (d_tables d)))) /\
  (forall id, get_job_name m id =
              match first_with_id id (d_jobs d) with
              | Some kv => Ok kv.2
              | None => Err OutOfRange
              end) /\
  (forall id, has_job m id = bool_decide (is_Some (first_with_id id (d_jobs d)))).
Proof.
  intros m. subst m.
  unfold get_table_name, has_table, get_job_name, has_job, map_at.
  cbn [DatabaseMetadata_of table_names_ job_names_ next_table_id_ next_job_id_].
  split_and!; try reflexivity; intros id; rewrite lookup_insert_all_empty.
  - by destruct (first_with_id id (d_tables d)).
  - apply bool_decide_ext. rewrite !is_Some_alt.
    by destruct (first_with_id id (d_tables d)).
  - by destruct (first_with_id id (d_jobs d)).
  - apply bool_decide_ext. rewrite !is_Some_alt.
    by destruct (first_with_id id (d_jobs d)).
Qed.

(** *** Exporting a descriptor *)

Lemma ascending_ids_lower (a : Z * string) (l : list (Z * string)) :
  ascending_ids (a :: l) -> forall b, b ∈ l -> a.1 < b.1.
Proof.
  intros Hs b Hb. apply StronglySorted_inv in Hs as [_ Hall].
  rewrite Forall_forall in Hall. by apply Hall.
Qed.

Lemma ascending_ids_NoDup (l : list (Z * string)) : ascending_ids l -> NoDup l.*1.
Proof.
  induction l as [| a l IH]; intros Hs; [constructor |].
  cbn [fmap list_fmap]. apply NoDup_cons. split.
  - intros Hin. apply list_elem_of_fmap in Hin as (b & Heq & Hb).
    pose proof (ascending_ids_lower a l Hs b Hb). lia.
  - apply IH. by apply StronglySorted_inv in Hs as [? _].
Qed.

Lemma ascending_ids_key_le (l : list (Z * string)) :
  ascending_ids l -> StronglySorted (key_le Z.le) l.
Proof.
  induction 1 as [| a l Hs IH Hall]; constructor; [done |].
  eapply Forall_impl; [exact Hall |]. intros b Hb. unfold key_le. simpl in *. lia.
Qed.

(** Key-sorted lists with distinct keys that hold the same entries are equal. *)
Lemma sorted_entries_unique (l1 : list (Z * string)) : forall l2,
  l1 ≡ₚ l2 -> NoDup l1.*1 ->
  StronglySorted (key_le Z.le) l1 -> StronglySorted (key_le Z.le) l2 ->
  l1 = l2.
Proof.
  induction l1 as [| a l1 IH]; intros l2 Hperm Hnd Hs1 Hs2.
  - by apply Permutation_nil_l in Hperm.
  - destruct l2 as [| b l2]; [by apply Permutation_nil_r in Hperm |].
    cbn [fmap list_fmap] in Hnd. apply NoDup_cons in Hnd as [Hnin Hnd].
    apply StronglySorted_inv in Hs1 as [Hs1 Hall1].
    apply StronglySorted_inv in Hs2 as [Hs2 Hall2].
    rewrite Forall_forall in Hall1, Hall2.
    assert (a = b) as ->.
    { assert (a ∈ b :: l2) as Ha by (rewrite <- Hperm; left).
      assert (b ∈ a :: l1) as Hb by (rewrite Hperm; left).
      apply elem_of_cons in Ha as [Ha | Ha]; [done |].
      apply elem_of_cons in Hb as [Hb | Hb]; [done |].
      specialize (Hall1 _ Hb). specialize (Hall2 _ Ha). unfold key_le in *.
      destruct Hnin. apply list_elem_of_fmap. exists b. split; [lia | done]. }
    f_equal. apply IH; try done. by apply Permutation_cons_inv in Hperm.
Qed.

Lemma entries_ascending (tbl : gmap Z string) : ascending_ids (entries tbl).
Proof.
  pose proof (entries_sorted tbl) as Hs. pose proof (NoDup_fst_entries tbl) as Hnd.
  unfold ascending_ids. induction Hs as [| a l Hs IH Hall]; constructor.
  - apply IH. cbn [fmap list_fmap] in Hnd. by apply NoDup_cons in Hnd as [_ ?].
  - cbn [fmap list_fmap] in Hnd. apply NoDup_cons in Hnd as [Hnin _].
    rewrite Forall_forall in Hall |- *. intros b Hb. specialize (Hall b Hb).
    unfold key_le in Hall. simpl in Hall.
    assert (a.1 <> b.1); [| lia].
    intros Heq. apply Hnin. apply list_elem_of_fmap. eauto.
Qed.

Lemma entries_of_ascending (l : list (Z * string)) :
  ascending_ids l -> entries (insert_all l ∅) = l.
Proof.
  intros Hs.
  assert (insert_all l ∅ = list_to_map l) as ->.
  { apply map_eq. intros k. by rewrite lookup_insert_all, lookup_empty. }
  apply sorted_entries_unique.
  - rewrite entries_perm. apply map_to_list_to_map. by apply ascending_ids_NoDup.
  - apply NoDup_fst_entries.
  - apply entries_sorted.
  - by apply ascending_ids_key_le.
Qed.

(** X9.  Whatever the catalog holds, the table list and the job list that
    [get_descriptor] exports are strictly ascending in id, hence free of
    repeated ids, and calling it again on the object it leaves behind
    exports the same descriptor. *)
Theorem exported_lists_ascending (m : DatabaseMetadata) :
  ascending_ids (d_tables (get_descriptor m).1) /\
  ascending_ids (d_jobs (get_descriptor m).1) /\
  NoDup (d_tables (get_descriptor m).1).*1 /\
  NoDup (d_jobs (get_descriptor m).1).*1 /\
  (get_descriptor (get_descriptor m).2).1 = (get_descriptor m).1 /\
  descriptor_ (get_descriptor m).2 = (get_descriptor m).1.
Proof.
  cbn [get_descriptor fst snd d_tables d_jobs table_names_ job_names_ next_table_id_
       next_job_id_ descriptor_].
  split_and!; try reflexivity;
    auto using entries_ascending, NoDup_fst_entries.
Qed.

(** X10.  A descriptor whose table ids and job ids strictly ascend survives
    the trip through a catalog unchanged: building the catalog from it and
    exporting again gives the descriptor back. *)
Theorem descriptor_round_trip (d : DatabaseDescriptor) :
  ascending_ids (d_tables d) ->
  ascending_ids (d_jobs d) ->
  (get_descriptor (DatabaseMetadata_of d)).1 = d.
Proof.
  intros Ht Hj. destruct d as [nt nj ts js].
  cbn [get_descriptor DatabaseMetadata_of fst d_tables d_jobs d_next_table_id
       d_next_job_id table_names_ job_names_ next_table_id_ next_job_id_] in *.
  by rewrite !entries_of_ascending.
Qed.

Lemma descriptor_round_trip_witness :
  (get_descriptor
     (DatabaseMetadata_of
        (mkDatabaseDescriptor 7 3 [(2, "videos"); (5, "frames")] [(0, "detect")]))).1
  = mkDatabaseDescriptor 7 3 [(2, "videos"); (5, "frames")] [(0, "detect")].
Proof.
  apply descriptor_round_trip; unfold ascending_ids; simpl;
    repeat (constructor; simpl; try lia).
Defined.

(** A descriptor that repeats an id does not survive the trip: the later
    entry is gone. *)
Example descriptor_repeated_id_dropped :
  d_tables (get_descriptor
              (DatabaseMetadata_of
                 (mkDatabaseDescriptor 2 0 [(0, "videos"); (0, "frames")] []))).1
  = [(0, "videos")].
Proof. vm_compute. reflexivity. Qed.

(** *** Catalogs grown from a fresh one *)

(** X11.  On a catalog grown from a fresh one by calls that issue at most
    2^31 ids of each kind, every registered id lies between 0 and the number
    of ids issued, so the -1 the name scan starts from is never a real id:
    [get_table_id(name)] returns exactly when [has_table(name)] is true, and
    likewise for jobs. *)
Theorem grown_catalog_lookup_total (ops : list op) (replies : list reply)
    (m : DatabaseMetadata) (name : string) :
  table_adds ops <= 2147483648 ->
  job_adds ops <= 2147483648 ->
  run ops DatabaseMetadata_new = Ok (replies, m) ->
  (forall id, has_table m id = true -> 0 <= id < table_adds ops) /\
  (forall id, has_job m id = true -> 0 <= id < job_adds ops) /\
  (has_table_name m name = true <-> exists id, get_table_id m name = Ok id) /\
  (has_job_name m name = true <-> exists id, get_job_id m name = Ok id).
Proof.
  intros Ht Hj Hrun.
  destruct (run_issued ops _ _ _ _ _ issued_new ltac:(lia) ltac:(lia) Hrun)
    as (_ & _ & Hinv).
  destruct Hinv as [_ _ _ _ Htables Hjobs]. simpl in Htables, Hjobs.
  unfold has_table, has_job, has_table_name, has_job_name, get_table_id, get_job_id.
  split_and!.
  - intros id Hid. apply bool_decide_eq_true in Hid. auto.
  - intros id Hid. apply bool_decide_eq_true in Hid. auto.
  - rewrite existsb_name_is.
    destruct (scan_id_entries (table_names_ m) name) as (_ & T2 & T3 & _). split.
    + intros Hex. destruct T3 as (id & Hid & _); [done | | eauto].
      intros Hm1. specialize (Htables (-1) ltac:(eauto)). lia.
    + intros [id Hid]. apply T2 in Hid as [[Hid _] _]. eauto.
  - rewrite existsb_name_is.
    destruct (scan_id_entries (job_names_ m) name) as (_ & J2 & J3 & _). split.
    + intros Hex. destruct J3 as (id & Hid & _); [done | | eauto].
      intros Hm1. specialize (Hjobs (-1) ltac:(eauto)). lia.
    + intros [id Hid]. apply J2 in Hid as [[Hid _] _]. eauto.
Qed.

Lemma grown_catalog_lookup_total_witness :
  exists m,
    run [AddTable "videos"; AddTable "frames"; RemoveTable 0] DatabaseMetadata_new
    = Ok ([TableId 0; TableId 1; Removed], m) /\
    (has_table_name m "frames" = true <-> exists id, get_table_id m "frames" = Ok id).
Proof.
  eexists. split; [vm_compute; reflexivity |].
  eapply (grown_catalog_lookup_total [AddTable "videos"; AddTable "frames"; RemoveTable 0]).
  - simpl. lia.
  - simpl. lia.
  - vm_compute. reflexivity.
Defined.

Lemma size_delete_present (tbl : gmap Z string) (k : Z) :
  is_Some (tbl !! k) -> Z.of_nat (size (delete k tbl)) = Z.of_nat (size tbl) - 1.
Proof.
  intros Hk. rewrite map_size_delete_Some by done.
  assert (size tbl <> 0%nat); [| lia].
  intros H0. apply map_size_empty_iff in H0. subst tbl.
  destruct Hk as [v Hv]. by rewrite lookup_empty in Hv.
Qed.

Lemma run_sizes ops : forall ct cj m replies m',
  issued ct cj m ->
  ct + table_adds ops <= 2147483648 ->
  cj + job_adds ops <= 2147483648 ->
  run ops m = Ok (replies, m') ->
  Z.of_nat (size (table_names_ m'))
  = Z.of_nat (size (table_names_ m)) + table_adds ops - table_removes ops /\
  Z.of_nat (size (job_names_ m'))
  = Z.of_nat (size (job_names_ m)) + job_adds ops - job_removes ops.
Proof.
  induction ops as [| o ops IH]; intros ct cj m replies m' Hinv Ht Hj; simpl.
  - intros [= _ <-]. lia.
  - pose proof (table_adds_nonneg ops). pose proof (job_adds_nonneg ops).
    destruct o as [name | id | name | id]; simpl in *.
    + destruct (issued_add_table ct cj m name Hinv ltac:(lia)) as [Hid Hinv1].
      simpl in Hid, Hinv1.
      destruct (run ops _) as [[rs m2] | f] eqn:Hrun; simpl; [| discriminate].
      intros [= _ <-].
      destruct (IH _ _ _ _ _ Hinv1 ltac:(lia) Hj Hrun) as [Hts Hjs].
      cbn [table_names_ job_names_] in Hts, Hjs.
      rewrite map_size_insert_None in Hts; [lia |].
      destruct (table_names_ m !! next_table_id_ m) eqn:E; [| done].
      destruct Hinv as [_ _ _ _ Hkeys _]. specialize (Hkeys _ ltac:(eauto)). lia.
    + destruct (remove_table m id) as [m1 | f] eqn:Hrm; simpl; [| discriminate].
      destruct (issued_remove_table _ _ _ _ _ Hinv Hrm) as [_ Hinv1].
      destruct (run ops m1) as [[rs m2] | f] eqn:Hrun; simpl; [| discriminate].
      intros [= _ <-].
      destruct (IH _ _ _ _ _ Hinv1 Ht Hj Hrun) as [Hts Hjs].
      unfold remove_table, has_table in Hrm.
      case_bool_decide as Hin; [| discriminate]. injection Hrm as <-.
      cbn [table_names_ job_names_] in Hts, Hjs.
      rewrite size_delete_present in Hts by done. lia.
    + destruct (issued_add_job ct cj m name Hinv ltac:(lia)) as [Hid Hinv1].
      simpl in Hid, Hinv1.
      destruct (run ops _) as [[rs m2] | f] eqn:Hrun; simpl; [| discriminate].
      intros [= _ <-].
      destruct (IH _ _ _ _ _ Hinv1 Ht ltac:(lia) Hrun) as [Hts Hjs].
      cbn [table_names_ job_names_] in Hts, Hjs.
      rewrite map_size_insert_None in Hjs; [lia |].
      destruct (job_names_ m !! next_job_id_ m) eqn:E; [| done].
      destruct Hinv as [_ _ _ _ _ Hkeys]. specialize (Hkeys _ ltac:(eauto)). lia.
    + destruct (remove_job m id) as [m1 | f] eqn:Hrm; simpl; [| discriminate].
      destruct (issued_remove_job _ _ _ _ _ Hinv Hrm) as [_ Hinv1].
      destruct (run ops m1) as [[rs m2] | f] eqn:Hrun; simpl; [| discriminate].
      intros [= _ <-].
      destruct (IH _ _ _ _ _ Hinv1 Ht Hj Hrun) as [Hts Hjs].
      unfold remove_job, has_job in Hrm.
      case_bool_decide as Hin; [| discriminate]. injection Hrm as <-.
      cbn [table_names_ job_names_] in Hts, Hjs.
      rewrite size_delete_present in Hjs by done. lia.
Qed.

(** X12.  On a catalog grown from a fresh one by calls that issue at most
    2^31 ids of each kind, the number of registered tables is the number of
    [add_table] calls minus the number of [remove_table] calls, and likewise
    for jobs: every add registers a new id and every remove that returns
    takes one out. *)
Theorem grown_catalog_size (ops : list op) (replies : list reply) (m : DatabaseMetadata) :
  table_adds ops <= 2147483648 ->
  job_adds ops <= 2147483648 ->
  run ops DatabaseMetadata_new = Ok (replies, m) ->
  Z.of_nat (size (table_names_ m)) = table_adds ops - table_removes ops /\
  Z.of_nat (size (job_names_ m)) = job_adds ops - job_removes ops /\
  Z.of_nat (length (d_tables (get_descriptor m).1)) = table_adds ops - table_removes ops /\
  Z.of_nat (length (d_jobs (get_descriptor m).1)) = job_adds ops - job_removes ops.
Proof.
  intros Ht Hj Hrun.
  destruct (run_sizes ops _ _ _ _ _ issued_new ltac:(lia) ltac:(lia) Hrun) as [Hts Hjs].
  change (table_names_ DatabaseMetadata_new) with (∅ : gmap Z string) in Hts.
  change (job_names_ DatabaseMetadata_new) with (∅ : gmap Z string) in Hjs.
  rewrite map_size_empty in Hts, Hjs.
  cbn [get_descriptor fst d_tables d_jobs].
  rewrite !(Permutation_length (entries_perm _)), !length_map_to_list.
  lia.
Qed.

Lemma grown_catalog_size_witness :
  exists m,
    run [AddTable "videos"; AddTable "frames"; RemoveTable 0; AddJob "detect"]
        DatabaseMetadata_new
    = Ok ([TableId 0; TableId 1; Removed; JobId 0], m) /\
    Z.of_nat (size (table_names_ m)) = 1 /\ Z.of_nat (size (job_names_ m)) = 1.
Proof.
  eexists. split; [vm_compute; reflexivity |].
  edestruct (grown_catalog_size
               [AddTable "videos"; AddTable "frames"; RemoveTable 0; AddJob "detect"])
    as (Hts & Hjs & _).
  - simpl. lia.
  - simpl. lia.
  - vm_compute. reflexivity.
  - split; [exact Hts | exact Hjs].
Defined.

(** * Further properties of job metadata *)

Lemma collect_columns_from (cs : list Column) : forall (cols : list Column) (ids : gmap string Z),
  fold_left (fun '(cols, ids) c => ((cols ++ [c])%list, map_insert_new (c_name c) (c_id c) ids))
            cs (cols, ids)
  = ((cols ++ cs)%list,
     fold_left (fun ids c => map_insert_new (c_name c) (c_id c) ids) cs ids).
Proof.
  induction cs as [| c cs IH]; intros cols ids; simpl.
  - by rewrite app_nil_r.
  - by rewrite IH, <- app_assoc.
Qed.

Lemma lookup_column_index (cs : list Column) : forall (ids : gmap string Z) (n : string),
  fold_left (fun ids c => map_insert_new (c_name c) (c_id c) ids) cs ids !! n
  = match ids !! n with
    | Some i => Some i
    | None => c_id <$> find (has_name n) cs
    end.
Proof.
  induction cs as [| c cs IH]; intros ids n; simpl.
  - by destruct (ids !! n).
  - rewrite IH. unfold map_insert_new, has_name.
    destruct (ids !! c_name c) as [j |] eqn:Hc.
    + destruct (ids !! n) as [i |] eqn:Hn; [done |].
      rewrite bool_decide_eq_false_2; [done | congruence].
    + case_bool_decide as Heq.
      * subst n. by rewrite Hc, lookup_insert_eq.
      * by rewrite lookup_insert_ne.
Qed.

Lemma find_has_name_None (n : string) (cs : list Column) :
  find (has_name n) cs = None <-> forall c, c ∈ cs -> c_name c <> n.
Proof.
  rewrite find_none_iff. unfold has_name. split; intros H c Hc.
  - specialize (H c Hc). by apply bool_decide_eq_false in H.
  - apply bool_decide_eq_false. auto.
Qed.

(** X13.  A [JobMetadata] built from a descriptor hands out the descriptor's
    columns, in order, and indexes every name under the id of the first
    column that has it, names no column has being absent from the index.
    When no column has the name, [column_id(name)] throws
    [std::out_of_range]. *)
Theorem job_columns_index (job : JobDescriptor) :
  let m := JobMetadata_of job in
  JobMetadata.columns m = jd_columns job /\
  (forall n, column_ids_ m !! n = c_id <$> find (has_name n) (jd_columns job)) /\
  (forall n, (forall c, c ∈ jd_columns job -> c_name c <> n) ->
             column_ids_ m !! n = None /\
             JobMetadata.column_id m n = Err OutOfRange).
Proof.
  intros m.
  assert (JobMetadata.columns m = jd_columns job /\
          forall n, column_ids_ m !! n = c_id <$> find (has_name n) (jd_columns job))
    as [Hcols Hidx].
  { subst m. unfold JobMetadata_of, collect_columns, JobMetadata.columns.
    rewrite collect_columns_from. cbn [job_columns_ column_ids_ app].
    split; [reflexivity |]. intros n. by rewrite lookup_column_index, lookup_empty. }
  split_and!; try done.
  intros n Hnone. apply find_has_name_None in Hnone.
  unfold JobMetadata.column_id, map_at. by rewrite Hidx, Hnone.
Qed.

Lemma job_columns_index_witness :
  column_ids_ (JobMetadata_of two_task_job) !! "index" = None /\
  JobMetadata.column_id (JobMetadata_of two_task_job) "index" = Err OutOfRange.
Proof.
  destruct (job_columns_index two_task_job) as (_ & _ & Hout).
  apply Hout. intros c Hc. simpl in Hc.
  apply list_elem_of_singleton in Hc as ->. discriminate.
Defined.

(** X14.  [has_table(table_id)] of a job is true exactly when some task of
    the descriptor writes to that table, which is also exactly when the id
    is in [table_ids()]. *)
Theorem job_has_table_iff_task (job : JobDescriptor) (t : Z) :
  (JobMetadata.has_table (JobMetadata_of job) t = true <->
   exists task, task ∈ jd_tasks job /\ output_table_id task = t) /\
  (JobMetadata.has_table (JobMetadata_of job) t = true <->
   t ∈ JobMetadata.table_ids (JobMetadata_of job)).
Proof.
  assert (JobMetadata.has_table (JobMetadata_of job) t = true <->
          t ∈ JobMetadata.table_ids (JobMetadata_of job)) as Hmem.
  { unfold JobMetadata.has_table, JobMetadata.table_ids. rewrite existsb_exists. split.
    - intros (x & Hin & Hx). apply bool_decide_eq_true in Hx. subst x.
      by apply list_elem_of_In.
    - intros Hin. exists t. split; [by apply list_elem_of_In |].
      by apply bool_decide_eq_true. }
  split; [| exact Hmem].
  rewrite Hmem, table_ids_of_job, list_elem_of_fmap.
  split; [intros (task & -> & Ht) | intros (task & Ht & <-)]; eauto.
Qed.

(** *** [total_rows] *)

Lemma wrap64_id z :
  -9223372036854775808 <= z <= 9223372036854775807 -> wrap64 z = z.
Proof. intros Hz. unfold wrap64. rewrite Z.mod_small by lia. lia. Qed.

Lemma wrap64_add_l a b : wrap64 (wrap64 a + b) = wrap64 (a + b).
Proof.
  unfold wrap64.
  replace ((a + 9223372036854775808) mod 18446744073709551616 - 9223372036854775808 + b
           + 9223372036854775808)
    with ((a + 9223372036854775808) mod 18446744073709551616 + b) by lia.
  rewrite Zplus_mod_idemp_l. f_equal. f_equal. lia.
Qed.

Lemma total_rows_from_sum (tasks : list Task) : forall rows,
  Forall (fun task => samples task <> []) tasks ->
  JobMetadata.total_rows_from tasks (wrap64 rows) = Ok (wrap64 (rows + rows_sum tasks)).
Proof.
  induction tasks as [| task rest IH]; intros rows Hall; simpl.
  - by rewrite Z.add_0_r.
  - apply Forall_cons in Hall as [Hs Hall]. unfold first_sample_rows.
    destruct (samples task) as [| s ss]; [done |].
    rewrite wrap64_add_l, IH by done. f_equal. f_equal. lia.
Qed.

Lemma total_rows_from_no_sample (tasks : list Task) : forall rows,
  Exists (fun task => samples task = []) tasks ->
  JobMetadata.total_rows_from tasks rows = Err AssertFail.
Proof.
  induction tasks as [| task rest IH]; intros rows Hex; [by apply Exists_nil in Hex |].
  simpl. destruct (samples task) as [| s ss] eqn:Hs; [done |].
  apply Exists_cons in Hex as [Hex | Hex]; [congruence |]. by apply IH.
Qed.

Lemma rows_sum_nonneg (tasks : list Task) :
  Forall (fun task => samples task <> []) tasks -> 0 <= rows_sum tasks.
Proof.
  induction 1 as [| task rest Hs Hall IH]; simpl; [lia |].
  pose proof (first_sample_rows_nonneg task Hs). lia.
Qed.

(** X15.  [total_rows()] fails its assertion as soon as one task has no
    sample.  When every task has one it returns the sum, over all tasks, of
    the size of the task's first sample, stored as an [i64]: the sum itself
    when it is below 2^63, and 0 for a job without tasks. *)
Theorem total_rows_sums_first_samples (m : JobMetadata) :
  (Exists (fun task => samples task = []) (jd_tasks (job_descriptor_ m)) ->
   JobMetadata.total_rows m = Err AssertFail) /\
  (Forall (fun task => samples task <> []) (jd_tasks (job_descriptor_ m)) ->
   JobMetadata.total_rows m = Ok (wrap64 (rows_sum (jd_tasks (job_descriptor_ m))))) /\
  (Forall (fun task => samples task <> []) (jd_tasks (job_descriptor_ m)) ->
   rows_sum (jd_tasks (job_descriptor_ m)) < 9223372036854775808 ->
   JobMetadata.total_rows m = Ok (rows_sum (jd_tasks (job_descriptor_ m)))) /\
  (jd_tasks (job_descriptor_ m) = [] -> JobMetadata.total_rows m = Ok 0).
Proof.
  unfold JobMetadata.total_rows.
  assert (forall tasks, Forall (fun task => samples task <> []) tasks ->
            JobMetadata.total_rows_from tasks 0 = Ok (wrap64 (rows_sum tasks))) as Hsum.
  { intros tasks Hall. change 0 with (wrap64 0) at 1.
    by rewrite total_rows_from_sum. }
  split_and!.
  - apply total_rows_from_no_sample.
  - apply Hsum.
  - intros Hall Hlt. rewrite Hsum by done. f_equal. apply wrap64_id.
    pose proof (rows_sum_nonneg _ Hall). lia.
  - by intros ->.
Qed.

Lemma total_rows_sums_first_samples_witness :
  JobMetadata.total_rows (JobMetadata_of two_task_job) = Ok 3 /\
  JobMetadata.total_rows
    (JobMetadata_of (mkJobDescriptor 0 "detect" 1 1 1 [] [mkTask 5 []])) = Err AssertFail.
Proof.
  split.
  - destruct (total_rows_sums_first_samples (JobMetadata_of two_task_job))
      as (_ & _ & Hsum & _).
    rewrite Hsum; [reflexivity | | vm_compute; reflexivity].
    repeat constructor; discriminate.
  - apply (proj1 (total_rows_sums_first_samples _)). by left.
Defined.

(** *** [rows_in_table] *)

Lemma rows_scan_no_sample t (tasks : list Task) : forall rows cache,
  Exists (fun task => samples task = []) tasks ->
  JobMetadata.rows_scan t tasks rows cache = Err AssertFail.
Proof.
  induction tasks as [| task rest IH]; intros rows cache Hex;
    [by apply Exists_nil in Hex |].
  simpl. destruct (samples task) as [| s ss] eqn:Hs; [done |].
  apply Exists_cons in Hex as [Hex | Hex]; [congruence |]. by apply IH.
Qed.

Lemma rows_scan_other t (tasks : list Task) : forall rows cache r cache',
  JobMetadata.rows_scan t tasks rows cache = Ok (r, cache') ->
  forall t', t' <> t -> cache' !! t' = cache !! t'.
Proof.
  induction tasks as [| task rest IH]; intros rows cache r cache'; simpl.
  - by intros [= _ <-].
  - destruct (samples task) as [| s ss]; [discriminate |].
    intros Hscan t' Hne. rewrite (IH _ _ _ _ Hscan t' Hne). unfold map_insert_new.
    destruct (cache !! t); [done |]. by rewrite lookup_insert_ne.
Qed.

Lemma rows_scan_Ok_inv t (tasks : list Task) rows cache r cache' :
  JobMetadata.rows_scan t tasks rows cache = Ok (r, cache') ->
  r <> rows ->
  exists task rest s ss, tasks = task :: rest /\ samples task = s :: ss.
Proof.
  destruct tasks as [| task rest]; simpl.
  - intros [= <- _] Hne. done.
  - destruct (samples task) as [| s ss] eqn:Hs; [discriminate |]. intros _ _.
    by exists task, rest, s, ss.
Qed.

(** X16.  On a freshly built [JobMetadata], [rows_in_table(table_id)] fails
    its assertion when the job has no task or when some task has no sample;
    otherwise it returns the size of the first sample of the last task.  The
    table id asked for plays no part in the answer: the call neither checks
    that a task writes to the table nor picks the tasks that do. *)
Theorem rows_in_table_first_call (job : JobDescriptor) (t : Z) :
  (jd_tasks job = [] ->
   JobMetadata.rows_in_table (JobMetadata_of job) t = Err AssertFail) /\
  (Exists (fun task => samples task = []) (jd_tasks job) ->
   JobMetadata.rows_in_table (JobMetadata_of job) t = Err AssertFail) /\
  (jd_tasks job <> [] ->
   Forall (fun task => samples task <> []) (jd_tasks job) ->
   exists m',
     JobMetadata.rows_in_table (JobMetadata_of job) t
     = Ok (List.last (map first_sample_rows (jd_tasks job)) (-1), m') /\
     job_descriptor_ m' = job).
Proof.
  unfold JobMetadata.rows_in_table, JobMetadata_of.
  destruct (collect_columns (jd_columns job)) as [cols ids].
  cbn [rows_in_table_ job_descriptor_ job_columns_ column_ids_ table_ids_].
  rewrite lookup_empty. split_and!.
  - by intros ->.
  - intros Hex. by rewrite rows_scan_no_sample.
  - intros Hne Hall.
    destruct (rows_scan_value t (jd_tasks job) (-1) ∅ Hall) as [cache' Hscan].
    rewrite Hscan. cbn [res_bind].
    assert (0 <= List.last (map first_sample_rows (jd_tasks job)) (-1)) as Hlast.
    { apply (last_Forall (fun r => 0 <= r)).
      - by destruct (jd_tasks job).
      - apply Forall_fmap. eapply Forall_impl; [exact Hall |].
        intros task. apply first_sample_rows_nonneg. }
    rewrite bool_decide_eq_false_2 by lia. eauto.
Qed.

Lemma rows_in_table_first_call_witness :
  JobMetadata.rows_in_table (JobMetadata_of (mkJobDescriptor 0 "detect" 1 1 1 [] [])) 5
  = Err AssertFail /\
  JobMetadata.rows_in_table
    (JobMetadata_of (mkJobDescriptor 0 "detect" 1 1 1 [] [mkTask 5 []])) 5
  = Err AssertFail /\
  exists m', JobMetadata.rows_in_table (JobMetadata_of two_task_job) 99 = Ok (2, m').
Proof.
  split_and!.
  - by apply (proj1 (rows_in_table_first_call _ 5)).
  - apply (proj1 (proj2 (rows_in_table_first_call _ 5))). by left.
  - destruct (rows_in_table_first_call two_task_job 99) as (_ & _ & Hok).
    destruct Hok as (m' & Hm' & _).
    + discriminate.
    + repeat constructor; discriminate.
    + exists m'. exact Hm'.
Defined.

(** X17.  A call of [rows_in_table(t)] that returns leaves an object on
    which every further call for [t] returns one and the same value without
    changing the object; the call touches neither the descriptor nor the
    cached value of any other table id. *)
Theorem rows_in_table_settles (m : JobMetadata) (t r : Z) (m' : JobMetadata) :
  JobMetadata.rows_in_table m t = Ok (r, m') ->
  (exists v, rows_in_table_ m' !! t = Some v /\
             JobMetadata.rows_in_table m' t = Ok (v, m')) /\
  (forall t', t' <> t -> rows_in_table_ m' !! t' = rows_in_table_ m !! t') /\
  job_descriptor_ m' = job_descriptor_ m /\
  JobMetadata.table_ids m' = JobMetadata.table_ids m /\
  JobMetadata.columns m' = JobMetadata.columns m.
Proof.
  unfold JobMetadata.rows_in_table at 1.
  destruct (rows_in_table_ m !! t) as [cached |] eqn:Hc; cbn [res_bind].
  - case_bool_decide as Hm1; [discriminate |]. intros [= <- <-].
    cbn [rows_in_table_ job_descriptor_]. split_and!; try done.
    exists cached. split; [done |].
    unfold JobMetadata.rows_in_table. cbn [rows_in_table_]. rewrite Hc. cbn [res_bind].
    by rewrite bool_decide_eq_false_2.
  - destruct (JobMetadata.rows_scan t _ (-1) (rows_in_table_ m)) as [[rows cache] | f]
      eqn:Hscan; cbn [res_bind]; [| discriminate].
    case_bool_decide as Hm1; [discriminate |]. intros [= <- <-].
    cbn [rows_in_table_ job_descriptor_]. split_and!; try done.
    + destruct (rows_scan_Ok_inv _ _ _ _ _ _ Hscan Hm1)
        as (task & rest & s & ss & Htasks & Hs).
      pose proof (rows_scan_cache _ _ _ _ _ _ Hscan) as Hcache.
      rewrite Hc, Htasks, Hs in Hcache.
      exists (Z.of_nat (length (ts_rows s))). split; [done |].
      unfold JobMetadata.rows_in_table. cbn [rows_in_table_]. rewrite Hcache.
      cbn [res_bind]. by rewrite bool_decide_eq_false_2 by lia.
    + intros t' Hne. by eapply rows_scan_other.
Qed.

Lemma rows_in_table_settles_witness :
  exists m1, JobMetadata.rows_in_table (JobMetadata_of two_task_job) 5 = Ok (2, m1) /\
             JobMetadata.rows_in_table m1 5 = Ok (1, m1).
Proof.
  destruct (JobMetadata.rows_in_table (JobMetadata_of two_task_job) 5)
    as [[r m1] | f] eqn:Hfirst; [| vm_compute in Hfirst; discriminate].
  assert (r = 2) as -> by (vm_compute in Hfirst; congruence).
  exists m1. split; [reflexivity |].
  destruct (rows_in_table_settles _ _ _ _ Hfirst) as ((v & Hv & Hagain) & _).
  assert (v = 1) as ->; [| exact Hagain].
  vm_compute in Hfirst. injection Hfirst as <-. vm_compute in Hv. congruence.
Defined.

(** X18.  When the first samples of all tasks have the same size [r] (a job
    with a single task, for one), two calls of [rows_in_table] in a row both
    return [r]. *)
Theorem rows_in_table_coherent_when_equal (job : JobDescriptor) (t r : Z)
    (task0 : Task) (rest : list Task) :
  jd_tasks job = task0 :: rest ->
  Forall (fun task => samples task <> [] /\ first_sample_rows task = r) (task0 :: rest) ->
  rows_in_table_twice (JobMetadata_of job) t = Ok (r, r).
Proof.
  intros Htasks Hall.
  rewrite (rows_in_table_twice_first_last job t task0 rest Htasks).
  - f_equal. f_equal.
    + apply (last_Forall (fun x => x = r)); [done |].
      apply Forall_fmap. eapply Forall_impl; [exact Hall |]. by intros task [_ ?].
    + apply Forall_cons in Hall as [[_ ?] _]. done.
  - eapply Forall_impl; [exact Hall |]. by intros task [? _].
Qed.

Lemma rows_in_table_coherent_when_equal_witness :
  rows_in_table_twice
    (JobMetadata_of (mkJobDescriptor 0 "detect" 1 1 1 []
       [mkTask 5 [mkTableSample 0 [0; 1]]; mkTask 6 [mkTableSample 1 [3; 4]]])) 5
  = Ok (2, 2).
Proof.
  eapply rows_in_table_coherent_when_equal; [reflexivity |].
  repeat constructor; discriminate.
Defined.

(** * Further properties of table metadata *)

Lemma fold_left_snoc_id {A} (l : list A) :
  fold_left (fun acc c => (acc ++ [c])%list) l [] = l.
Proof.
  rewrite (fold_left_snoc (fun x => x) l []). simpl. apply map_id.
Qed.

Lemma find_Some_elem {A} (p : A -> bool) (l : list A) (c : A) :
  find p l = Some c -> c ∈ l /\ p c = true.
Proof. intros H. apply find_some in H as [Hin Hp]. split; [by apply list_elem_of_In | done]. Qed.

Lemma find_unique_key {A} (key : A -> Z) (l : list A) (c : A) :
  NoDup (key <$> l) -> c ∈ l ->
  find (fun x => bool_decide (key x = key c)) l = Some c.
Proof.
  induction l as [| a l IH]; intros Hnd Hin; [by apply elem_of_nil in Hin |].
  cbn [fmap list_fmap] in Hnd. apply NoDup_cons in Hnd as [Hnin Hnd].
  simpl. case_bool_decide as Hk.
  - apply elem_of_cons in Hin as [-> | Hin]; [done |].
    destruct Hnin. rewrite Hk. apply list_elem_of_fmap. eauto.
  - apply elem_of_cons in Hin as [-> | Hin]; [done |]. by apply IH.
Qed.

Lemma find_unique_name (l : list Column) (c : Column) :
  NoDup (c_name <$> l) -> c ∈ l -> find (has_name (c_name c)) l = Some c.
Proof.
  induction l as [| a l IH]; intros Hnd Hin; [by apply elem_of_nil in Hin |].
  cbn [fmap list_fmap] in Hnd. apply NoDup_cons in Hnd as [Hnin Hnd].
  simpl. unfold has_name at 1. case_bool_decide as Hk.
  - apply elem_of_cons in Hin as [-> | Hin]; [done |].
    destruct Hnin. rewrite Hk. apply list_elem_of_fmap. eauto.
  - apply elem_of_cons in Hin as [-> | Hin]; [done |]. by apply IH.
Qed.

(** A [TableMetadata] built from a descriptor hands out the
    descriptor's id, name and columns, the columns in their order. *)
Lemma table_metadata_of_descriptor (d : TableDescriptor) :
  TableMetadata.columns (TableMetadata_of d) = td_columns d /\
  TableMetadata.id (TableMetadata_of d) = td_id d /\
  TableMetadata.name (TableMetadata_of d) = td_name d.
Proof.
  unfold TableMetadata.columns, TableMetadata_of. cbn [table_columns_].
  rewrite fold_left_snoc_id. done.
Qed.

(** X19.  [column_name(id)] and [column_type(id)] stand or fall together:
    both end in [LOG(FATAL)] when no column has the id, and otherwise both
    answer from one and the same column of the list, which has that id. *)
Theorem column_name_type_same_column (t : TableMetadata) (i : Z) :
  (TableMetadata.column_name t i = Err LogFatal <->
   TableMetadata.column_type t i = Err LogFatal) /\
  (TableMetadata.column_name t i = Err LogFatal <->
   forall c, c ∈ td_columns (table_descriptor_ t) -> c_id c <> i) /\
  (forall n, TableMetadata.column_name t i = Ok n ->
     exists c, c ∈ td_columns (table_descriptor_ t) /\ c_id c = i /\ c_name c = n /\
               TableMetadata.column_type t i = Ok (c_type c)) /\
  (forall ty, TableMetadata.column_type t i = Ok ty ->
     exists c, c ∈ td_columns (table_descriptor_ t) /\ c_id c = i /\ c_type c = ty /\
               TableMetadata.column_name t i = Ok (c_name c)).
Proof.
  unfold TableMetadata.column_name, TableMetadata.column_type.
  destruct (find (has_id i) (td_columns (table_descriptor_ t))) as [c |] eqn:Hfind.
  - apply find_Some_elem in Hfind as [Hin Hp].
    unfold has_id in Hp. apply bool_decide_eq_true in Hp.
    split_and!.
    + split; discriminate.
    + split; [discriminate |]. intros Hnone. by destruct (Hnone c Hin).
    + intros n [= <-]. eauto 10.
    + intros ty [= <-]. eauto 10.
  - rewrite find_none_iff in Hfind. split_and!; try done.
    split; [intros _ | done]. intros c Hc. specialize (Hfind c Hc).
    unfold has_id in Hfind. by apply bool_decide_eq_false in Hfind.
Qed.

(** X20.  In a table whose column ids are pairwise distinct, the id that
    [column_id(name)] returns resolves back to the name with
    [column_name]; in a table whose column names are pairwise distinct, the
    name that [column_name(id)] returns resolves back to the id with
    [column_id]. *)
Theorem column_id_name_round_trip (t : TableMetadata) :
  (NoDup (c_id <$> td_columns (table_descriptor_ t)) ->
   forall n i, TableMetadata.column_id t n = Ok i -> TableMetadata.column_name t i = Ok n) /\
  (NoDup (c_name <$> td_columns (table_descriptor_ t)) ->
   forall i n, TableMetadata.column_name t i = Ok n -> TableMetadata.column_id t n = Ok i).
Proof.
  unfold TableMetadata.column_id, TableMetadata.column_name. split.
  - intros Hnd n i.
    destruct (find (has_name n) _) as [c |] eqn:Hfind; [| discriminate].
    intros [= <-]. apply find_Some_elem in Hfind as [Hin Hp].
    unfold has_name in Hp. apply bool_decide_eq_true in Hp. subst n.
    change (has_id (c_id c)) with (fun x => bool_decide (c_id x = c_id c)).
    by rewrite (find_unique_key c_id _ c Hnd Hin).
  - intros Hnd i n.
    destruct (find (has_id i) _) as [c |] eqn:Hfind; [| discriminate].
    intros [= <-]. apply find_Some_elem in Hfind as [Hin Hp].
    unfold has_id in Hp. apply bool_decide_eq_true in Hp. subst i.
    by rewrite (find_unique_name _ c Hnd Hin).
Qed.

Lemma column_id_name_round_trip_witness :
  TableMetadata.column_name index_frame_table 1 = Ok "frame" /\
  TableMetadata.column_id index_frame_table "index" = Ok 0.
Proof.
  destruct (column_id_name_round_trip index_frame_table) as [Hids Hnames].
  split.
  - apply Hids; [| vm_compute; reflexivity].
    simpl. apply NoDup_cons. split; [| apply NoDup_singleton].
    rewrite list_elem_of_singleton. discriminate.
  - apply Hnames; [| vm_compute; reflexivity].
    simpl. apply NoDup_cons. split; [| apply NoDup_singleton].
    rewrite list_elem_of_singleton. discriminate.
Defined.

Lemma column_name_type_same_column_witness :
  exists c, c ∈ td_columns (table_descriptor_ index_frame_table) /\
            c_id c = 1 /\ c_name c = "frame" /\
            TableMetadata.column_type index_frame_table 1 = Ok (c_type c).
Proof.
  apply (proj1 (proj2 (proj2 (column_name_type_same_column index_frame_table 1)))).
  vm_compute. reflexivity.
Defined.

(** * Further properties of publishing *)

Section PublishMore.

Variable Storage : Type.
Variable write_table_metadata : Storage -> TableMetadata -> option Storage.
Variable write_database_metadata : Storage -> DatabaseMetadata -> option Storage.

Local Abbreviation call1 := (publish Storage write_table_metadata write_database_metadata).
Local Abbreviation call_all :=
  (publish_all Storage write_table_metadata write_database_metadata).

(** X21.  [write_new_table] changes nothing of the table but its id: the
    table it leaves behind is the one it was given with the id replaced by
    the catalog's counter, so name, row count, rows per item, columns and
    the three column lookups answer as before.  It fails only with a backend
    failure, and when it returns, the stamped table has been written to the
    storage it was given and the catalog, in which the new id resolves to
    the table's name, to the storage that write produced; the catalog has
    lost no other table id and nothing on the job side. *)
Theorem write_new_table_registers (s : Storage) (m : DatabaseMetadata)
    (t : TableMetadata) :
  let out := call1 s m t in
  let t' := w_table out.2 in
  let m' := w_meta out.2 in
  t' = mkTableMetadata
         (mkTableDescriptor (next_table_id_ m) (td_name (table_descriptor_ t))
            (td_num_rows (table_descriptor_ t)) (td_rows_per_item (table_descriptor_ t))
            (td_columns (table_descriptor_ t)))
         (table_columns_ t) /\
  TableMetadata.id t' = next_table_id_ m /\
  TableMetadata.name t' = TableMetadata.name t /\
  TableMetadata.num_rows t' = TableMetadata.num_rows t /\
  TableMetadata.rows_per_item t' = TableMetadata.rows_per_item t /\
  TableMetadata.columns t' = TableMetadata.columns t /\
  (forall i, TableMetadata.column_name t' i = TableMetadata.column_name t i /\
             TableMetadata.column_type t' i = TableMetadata.column_type t i) /\
  (forall n, TableMetadata.column_id t' n = TableMetadata.column_id t n) /\
  get_table_name m' (TableMetadata.id t') = Ok (TableMetadata.name t) /\
  (forall id', id' <> next_table_id_ m -> get_table_name m' id' = get_table_name m id') /\
  job_names_ m' = job_names_ m /\
  next_job_id_ m' = next_job_id_ m /\
  (forall f, out.1 = Err f -> f = BackendFail) /\
  (out.1 = Ok tt ->
   exists s1, write_table_metadata s t' = Some s1 /\
              write_database_metadata s1 m' = Some (w_storage out.2)).
Proof.
  intros out t' m'. subst out t' m'. rewrite publish_outcome.
  set (t1 := set_id t (next_table_id_ m)).
  set (m1 := (add_table m (TableMetadata.name t)).2).
  assert (t1 = mkTableMetadata
                 (mkTableDescriptor (next_table_id_ m) (td_name (table_descriptor_ t))
                    (td_num_rows (table_descriptor_ t))
                    (td_rows_per_item (table_descriptor_ t))
                    (td_columns (table_descriptor_ t)))
                 (table_columns_ t) /\
          TableMetadata.id t1 = next_table_id_ m /\
          TableMetadata.name t1 = TableMetadata.name t /\
          TableMetadata.num_rows t1 = TableMetadata.num_rows t /\
          TableMetadata.rows_per_item t1 = TableMetadata.rows_per_item t /\
          TableMetadata.columns t1 = TableMetadata.columns t /\
          (forall i, TableMetadata.column_name t1 i = TableMetadata.column_name t i /\
                     TableMetadata.column_type t1 i = TableMetadata.column_type t i) /\
          (forall n, TableMetadata.column_id t1 n = TableMetadata.column_id t n) /\
          get_table_name m1 (TableMetadata.id t1) = Ok (TableMetadata.name t) /\
          (forall id', id' <> next_table_id_ m ->
                       get_table_name m1 id' = get_table_name m id') /\
          job_names_ m1 = job_names_ m /\
          next_job_id_ m1 = next_job_id_ m)
    as (H0 & H1 & H2 & Hn & Hr & H3 & H4 & H5 & H6 & H7 & H8 & H9).
  { subst t1 m1. unfold get_table_name, map_at, TableMetadata.id, set_id, add_table.
    cbn [snd table_names_ job_names_ next_job_id_ table_descriptor_ td_id].
    split_and!; try reflexivity; try done.
    - by rewrite lookup_insert_eq.
    - intros id' Hne. by rewrite lookup_insert_ne. }
  destruct (write_table_metadata s t1) as [s1 |] eqn:Hwt;
    [destruct (write_database_metadata s1 m1) as [s2 |] eqn:Hwd |];
    cbn [fst snd w_storage w_meta w_table]; split_and!; try assumption;
    try discriminate; try (by intros f [= <-]).
  intros _. exists s1. by split.
Qed.

End PublishMore.

Section PublishSequence.

Variable Storage : Type.
Variable write_table_metadata : Storage -> TableMetadata -> option Storage.
Variable write_database_metadata : Storage -> DatabaseMetadata -> option Storage.

Local Abbreviation call_seq :=
  (publish_all Storage write_table_metadata write_database_metadata).

Lemma publish_all_from (ts : list TableMetadata) : forall c s m s' m' out,
  next_table_id_ m = wrap32 c ->
  i32_min <= c ->
  c + Z.of_nat (length ts) <= 2147483648 ->
  call_seq s m ts = Ok (s', m', out) ->
  TableMetadata.id <$> out = seqZ c (Z.of_nat (length ts)) /\
  TableMetadata.name <$> out = TableMetadata.name <$> ts /\
  (forall k t, ts !! k = Some t ->
     table_names_ m' !! (c + Z.of_nat k) = Some (TableMetadata.name t)) /\
  (forall i, ~ (c <= i < c + Z.of_nat (length ts)) ->
     table_names_ m' !! i = table_names_ m !! i).
Proof.
  induction ts as [| t ts IH]; intros c s m s' m' out Hc Hlo Hhi.
  - cbn [publish_all]. intros [= _ <- <-]. split_and!; try done.
  - cbn [publish_all]. rewrite publish_outcome.
    unfold i32_min in Hlo. cbn [length] in Hhi.
    assert (next_table_id_ m = c) as Hnext.
    { rewrite Hc. apply wrap32_id. unfold in_i32, i32_min, i32_max. lia. }
    destruct (write_table_metadata s _) as [s1 |]; [| discriminate].
    destruct (write_database_metadata s1 _) as [s2 |]; [| discriminate].
    cbn [w_storage w_meta w_table].
    destruct (call_seq s2 _ ts) as [[[s3 m3] out3] | f] eqn:Hrest; [| discriminate].
    cbn [res_bind]. intros [= <- <- <-].
    apply (IH (c + 1)) in Hrest as (Hids & Hnames & Hnew & Hold).
    + rewrite Hnext in *. split_and!.
      * cbn [fmap list_fmap length]. rewrite (seqZ_cons c) by lia.
        f_equal. rewrite Hids. f_equal; lia.
      * cbn [fmap list_fmap]. by rewrite Hnames.
      * intros k t0 Hk. destruct k as [| k]; cbn in Hk.
        -- injection Hk as <-. rewrite Z.add_0_r, Hold by lia.
           cbn [add_table snd table_names_]. by rewrite Hnext, lookup_insert_eq.
        -- specialize (Hnew k t0 Hk).
           replace (c + Z.of_nat (S k)) with (c + 1 + Z.of_nat k) by lia. exact Hnew.
      * intros i Hi. cbn [length] in Hi. rewrite Hold by lia.
        cbn [add_table snd table_names_]. rewrite Hnext, lookup_insert_ne by lia. done.
    + cbn [add_table snd next_table_id_]. by rewrite Hc, wrap32_wrap32_succ.
    + unfold i32_min. lia.
    + lia.
Qed.

(** X22.  Tables published one after the other on the same catalog, every
    write succeeding and the counter staying within its range, are stamped
    with consecutive ids starting at the catalog's counter, in the order of
    the calls and with their names kept; afterwards each of these ids
    resolves to the name of its table, and every other id resolves as it did
    before the first call. *)
Theorem publish_all_consecutive (ts : list TableMetadata) (s : Storage)
    (m : DatabaseMetadata) (s' : Storage) (m' : DatabaseMetadata)
    (out : list TableMetadata) :
  in_i32 (next_table_id_ m) ->
  next_table_id_ m + Z.of_nat (length ts) <= 2147483648 ->
  call_seq s m ts = Ok (s', m', out) ->
  TableMetadata.id <$> out = seqZ (next_table_id_ m) (Z.of_nat (length ts)) /\
  TableMetadata.name <$> out = TableMetadata.name <$> ts /\
  (forall k t, ts !! k = Some t ->
     get_table_name m' (next_table_id_ m + Z.of_nat k) = Ok (TableMetadata.name t)) /\
  (forall i, ~ (next_table_id_ m <= i < next_table_id_ m + Z.of_nat (length ts)) ->
     get_table_name m' i = get_table_name m i).
Proof.
  intros Hin Hhi Hall.
  destruct (publish_all_from ts (next_table_id_ m) s m s' m' out)
    as (Hids & Hnames & Hnew & Hold); try done.
  - by rewrite wrap32_id.
  - unfold in_i32 in Hin. lia.
  - unfold get_table_name, map_at. split_and!; try done.
    + intros k t Hk. by rewrite (Hnew k t Hk).
    + intros i Hi. by rewrite (Hold i Hi).
Qed.

End PublishSequence.

Lemma publish_all_consecutive_witness :
  exists s' m' out,
    publish_all (list Z) log_table_write log_database_write []
      DatabaseMetadata_new [videos_table; index_frame_table] = Ok (s', m', out) /\
    TableMetadata.id <$> out = [0; 1] /\
    get_table_name m' 1 = Ok "videos".
Proof.
  destruct (publish_all (list Z) log_table_write log_database_write []
              DatabaseMetadata_new [videos_table; index_frame_table])
    as [[[s' m'] out] | f] eqn:Hall; [| vm_compute in Hall; discriminate].
  exists s', m', out. split; [reflexivity |].
  destruct (publish_all_consecutive (list Z) log_table_write log_database_write
              [videos_table; index_frame_table] [] DatabaseMetadata_new s' m' out)
    as (Hids & _ & Hnew & _).
  - vm_compute. split; discriminate.
  - vm_compute. discriminate.
  - exact Hall.
  - split; [exact Hids |]. exact (Hnew 1%nat index_frame_table eq_refl).
Defined.

Lemma write_new_table_registers_witness :
  exists s1,
    log_table_write []
      (w_table (publish (list Z) log_table_write log_database_write []
                  DatabaseMetadata_new videos_table).2) = Some s1 /\
    log_database_write s1
      (w_meta (publish (list Z) log_table_write log_database_write []
                 DatabaseMetadata_new videos_table).2)
    = Some (w_storage (publish (list Z) log_table_write log_database_write []
                         DatabaseMetadata_new videos_table).2).
Proof.
  destruct (write_new_table_registers (list Z) log_table_write log_database_write []
              DatabaseMetadata_new videos_table)
    as (_ & _ & _ & _ & _ & _ & _ & _ & _ & _ & Hdone).
  apply Hdone. vm_compute. reflexivity.
Defined.

(** * The id a publish allocates *)

Section PublishConsumed.

Variable Storage : Type.
Variable write_table_metadata : Storage -> TableMetadata -> option Storage.
Variable write_database_metadata : Storage -> DatabaseMetadata -> option Storage.

Local Abbreviation call9 := (publish Storage write_table_metadata write_database_metadata).
Local Abbreviation call_all9 :=
  (publish_all Storage write_table_metadata write_database_metadata).


End PublishConsumed.


